(** * Suwi service worker: caching and offline agent

    A shallow embedding of [static/service-worker.js].  The worker is a
    set of event listeners (install, activate, fetch, push) that talk to
    the browser through promise-returning host calls: [caches.match],
    [caches.open], [cache.put], [cache.addAll], [caches.keys],
    [caches.delete], [fetch], [showNotification].

    The host is an explicit state ([Host]): the origin's cache storage,
    the network and the fallible cache deletion as oracles, the jobs a
    listener started without waiting for them, and a log of every host
    call.  Listeners are written in a small state monad over [Host]; a
    promise is the settled value ([Fulfilled] or [Rejected]) its
    computation yields, so a promise chain runs where the listener
    creates it and the log follows the program text.  A job that the
    listener does not wait for is queued once its first call is made
    ([detach]) and runs when the host settles ([settle]).

    The Cache API is modelled as far as the worker depends on it: a
    cache is a request-response list matched by method and URL, [put]
    replaces, [addAll] is one batch, [caches.match] searches the caches
    in creation order, and [put] and [addAll] refuse a partial (206)
    response and one with [Vary: *].  Matching a cached response by the
    headers its [Vary] names is outside the model.

    The notification click listener is modelled by the host calls it
    makes.  Of the page script [static/js/main.js] the two string
    functions are modelled: the phone field's formatting and
    [getCookie], the latter over the host's [trim] and
    [decodeURIComponent]. *)

From Stdlib Require Import String Ascii List ZArith Bool Lia.
Import ListNotations.
Open Scope string_scope.
Open Scope Z_scope.

(** ** Strings, as the JS string methods the worker uses *)

(** [s.startsWith(p)] *)
Definition startsWith (s p : string) : bool := String.prefix p s.

(** [s.includes(p)]: [p] occurs in [s] at some position. *)
Fixpoint includes (s p : string) : bool :=
  String.prefix p s ||
  match s with
  | EmptyString => false
  | String _ s' => includes s' p
  end.

(** [s.split(sep)] for a one-character separator. *)
Fixpoint split_on (sep : ascii) (s : string) : list string :=
  match s with
  | EmptyString => [EmptyString]
  | String c s' =>
      if Ascii.eqb c sep then EmptyString :: split_on sep s'
      else match split_on sep s' with
           | seg :: segs => String c seg :: segs
           | [] => [String c EmptyString]
           end
  end.

Fixpoint string_rev (s : string) : string :=
  match s with
  | EmptyString => EmptyString
  | String c s' => string_rev s' ++ String c EmptyString
  end.

(** Stripping the spaces and tabs around a header field value. *)
Definition is_ows (c : ascii) : bool := Ascii.eqb c " " || Ascii.eqb c "009".

Fixpoint strip_ows_start (s : string) : string :=
  match s with
  | EmptyString => EmptyString
  | String c s' => if is_ows c then strip_ows_start s' else s
  end.

Definition strip_ows (s : string) : string :=
  string_rev (strip_ows_start (string_rev (strip_ows_start s))).

(** ** Requests and responses *)

(** A parsed URL, as [new URL(request.url)] exposes it. *)
Record URL := mkURL {
  origin : string;
  pathname : string;
  search : string
}.

Definition url_eqb (u v : URL) : bool :=
  String.eqb (origin u) (origin v) &&
  String.eqb (pathname u) (pathname v) &&
  String.eqb (search u) (search v).

Definition Headers := list (string * string).

Definition lower_ascii (c : ascii) : ascii :=
  let n := nat_of_ascii c in
  if (Nat.leb 65 n && Nat.leb n 90)%bool then ascii_of_nat (n + 32) else c.

Fixpoint toLowerCase (s : string) : string :=
  match s with
  | EmptyString => EmptyString
  | String c s' => String (lower_ascii c) (toLowerCase s')
  end.

Fixpoint join_values (vs : list string) : string :=
  match vs with
  | [] => ""
  | [v] => v
  | v :: vs' => v ++ ", " ++ join_values vs'
  end.

(** [headers.get(name)]: header names compare case-insensitively, the
    values of a repeated header are joined, and an absent header gives
    [null] (here [None]). *)
Definition headers_get (hs : Headers) (name : string) : option string :=
  match filter (fun h => String.eqb (toLowerCase (fst h)) (toLowerCase name)) hs with
  | [] => None
  | found => Some (join_values (map snd found))
  end.

Record Request := mkRequest {
  method : string;
  url : URL;
  req_headers : Headers
}.

Record Response := mkResponse {
  status : Z;
  resp_headers : Headers;
  body : string
}.

(** [response.ok]: the status is in the range 200-299. *)
Definition ok (r : Response) : bool := (200 <=? status r) && (status r <=? 299).

(** The response has a [Vary] header with the field value [*]. *)
Definition vary_star (r : Response) : bool :=
  match headers_get (resp_headers r) "vary" with
  | Some v => existsb (fun f => String.eqb (strip_ows f) "*") (split_on "," v)
  | None => false
  end.

(** A response the cache takes: [cache.put] and [cache.addAll] reject a
    partial response (status 206) and a response with [Vary: *]. *)
Definition storable (r : Response) : bool :=
  negb (status r =? 206) && negb (vary_star r).

(** [response.clone()]: an independent copy with the same status,
    headers and body. *)
Definition clone (r : Response) : Response := r.

(** ** Promises *)

Inductive Error :=
| TypeError (msg : string)
| HostError (msg : string).

Inductive Settled (A : Type) :=
| Fulfilled (a : A)
| Rejected (e : Error).
Arguments Fulfilled {A} a.
Arguments Rejected {A} e.

Definition is_rejected {A} (p : Settled A) : bool :=
  match p with Rejected _ => true | Fulfilled _ => false end.

(** ** Cache storage *)

(** A cache is its request-response list, in insertion order. *)
Definition Cache := list (Request * Response).

(** The origin's caches by name, in creation order. *)
Definition CacheStorage := list (string * Cache).

(** A stored request matches a queried one when the query is a GET and
    the URLs are equal, query string included. *)
Definition request_matches (q cached : Request) : bool :=
  String.eqb (method q) "GET" && url_eqb (url q) (url cached).

(** [cache.match(q)]: the first matching entry's response. *)
Definition cache_match (c : Cache) (q : Request) : option Response :=
  option_map snd (find (fun e => request_matches q (fst e)) c).

(** [caches.match(q)] looks through every cache of the origin, in
    creation order, and yields the first match. *)
Fixpoint storage_match (cs : CacheStorage) (q : Request) : option Response :=
  match cs with
  | [] => None
  | (_, c) :: cs' =>
      match cache_match c q with
      | Some r => Some r
      | None => storage_match cs' q
      end
  end.

Definition storage_keys (cs : CacheStorage) : list string := map fst cs.

Definition storage_has (cs : CacheStorage) (name : string) : bool :=
  existsb (String.eqb name) (storage_keys cs).

Definition storage_get (cs : CacheStorage) (name : string) : option Cache :=
  option_map snd (find (fun s => String.eqb name (fst s)) cs).

(** Opening a cache creates it, empty, when no cache has that name. *)
Definition storage_open (cs : CacheStorage) (name : string) : CacheStorage :=
  if storage_has cs name then cs else (cs ++ [(name, [])])%list.

Definition storage_delete (cs : CacheStorage) (name : string) : CacheStorage :=
  filter (fun s => negb (String.eqb name (fst s))) cs.

(** [cache.put(q, r)]: entries matching [q] are removed and the new pair
    is appended. *)
Definition cache_replace (c : Cache) (q : Request) (r : Response) : Cache :=
  (filter (fun e => negb (request_matches q (fst e))) c ++ [(q, r)])%list.

Definition storage_update (cs : CacheStorage) (name : string)
    (f : Cache -> Cache) : CacheStorage :=
  map (fun s => if String.eqb name (fst s) then (fst s, f (snd s)) else s) cs.

(** Number of entries of a cache that a request matches. *)
Definition entries_for (c : Cache) (q : Request) : nat :=
  length (filter (fun e => request_matches q (fst e)) c).

(** ** Notifications *)

(** The JSON object of a push message: [{ title?, body, url? }]. *)
Record PushPayload := mkPayload {
  data_title : option string;
  data_body : option string;
  data_url : option string
}.

Record NotificationOptions := mkOptions {
  opt_body : option string;
  opt_icon : string;
  opt_badge : string;
  opt_vibrate : list Z;
  opt_data_url : string
}.

(** [v || d] on an optional string: [undefined] and [''] are falsy. *)
Definition or_default (v : option string) (d : string) : string :=
  match v with
  | Some s => if String.eqb s "" then d else s
  | None => d
  end.

(** ** The host *)

(** Work started by a listener and not awaited:
    [caches.open(name).then((cache) => { cache.put(q, r); })], once
    [caches.open] has been called: the opening and the callback are
    still to come. *)
Inductive Job :=
| OpenThenPut (name : string) (q : Request) (r : Response).

Inductive Call :=
| CachesMatch (q : Request)
| CachesOpen (name : string)
| CachesKeys
| CachesDelete (name : string)
| CachePut (name : string) (q : Request) (r : Response)
| CacheAddAll (name : string) (paths : list string)
| Fetch (q : Request)
| SkipWaiting
| ClientsClaim
| ShowNotification (title : string) (options : NotificationOptions)
| ConsoleLog (msg : list string).

Record Host := mkHost {
  self_origin : string;                    (* origin the worker is served from *)
  network : Request -> Settled Response;   (* what [fetch] settles to *)
  delete_error : string -> option Error;   (* caches whose deletion rejects *)
  storage : CacheStorage;
  pending : list Job;
  log : list Call
}.

Definition set_storage (h : Host) (cs : CacheStorage) : Host :=
  mkHost (self_origin h) (network h) (delete_error h) cs (pending h) (log h).

Definition set_pending (h : Host) (js : list Job) : Host :=
  mkHost (self_origin h) (network h) (delete_error h) (storage h) js (log h).

Definition set_log (h : Host) (l : list Call) : Host :=
  mkHost (self_origin h) (network h) (delete_error h) (storage h) (pending h) l.

Definition set_network (h : Host) (n : Request -> Settled Response) : Host :=
  mkHost (self_origin h) n (delete_error h) (storage h) (pending h) (log h).

(** ** Handlers run in a state monad over the host *)

Definition M (A : Type) : Type := Host -> A * Host.

Definition ret {A} (a : A) : M A := fun h => (a, h).

Definition bind {A B} (m : M A) (k : A -> M B) : M B :=
  fun h => let (a, h') := m h in k a h'.

Declare Scope sw_scope.
Delimit Scope sw_scope with sw.
Notation "x <- m ;; k" := (bind m (fun x => k))
  (at level 100, m at next level, right associativity) : sw_scope.
Notation "m ;; k" := (bind m (fun _ => k))
  (at level 100, right associativity) : sw_scope.
Open Scope sw_scope.

Definition Promise (A : Type) : Type := M (Settled A).

Definition resolve {A} (a : A) : Promise A := ret (Fulfilled a).

(** [p.then(f)] *)
Definition then_ {A B} (p : Promise A) (f : A -> Promise B) : Promise B :=
  r <- p ;;
  match r with
  | Fulfilled a => f a
  | Rejected e => ret (Rejected e)
  end.

(** [p.catch(f)] *)
Definition catch_ {A} (p : Promise A) (f : Error -> Promise A) : Promise A :=
  r <- p ;;
  match r with
  | Fulfilled a => ret (Fulfilled a)
  | Rejected e => f e
  end.

Definition call (c : Call) : M unit :=
  fun h => (tt, set_log h (log h ++ [c])).

(** The jobs of a handler that nothing waits for. *)
Definition detach (j : Job) : M unit :=
  fun h => (tt, set_pending h (pending h ++ [j])).

Definition console_log (msg : list string) : M unit := call (ConsoleLog msg).

(** ** Host calls *)

(** [caches.match(q)] *)
Definition caches_match (q : Request) : Promise (option Response) :=
  call (CachesMatch q) ;;
  fun h => (Fulfilled (storage_match (storage h) q), h).

(** [fetch(q)] *)
Definition fetch (q : Request) : Promise Response :=
  call (Fetch q) ;;
  fun h => (network h q, h).

(** [caches.open(name)]; the cache object is identified by its name. *)
Definition caches_open (name : string) : Promise string :=
  call (CachesOpen name) ;;
  fun h => (Fulfilled name, set_storage h (storage_open (storage h) name)).

(** [cache.put(q, r)]: rejects with a [TypeError], storing nothing, for
    a response the cache does not take. *)
Definition cache_put (cache : string) (q : Request) (r : Response) : Promise unit :=
  call (CachePut cache q r) ;;
  fun h =>
    if storable r
    then (Fulfilled tt,
          set_storage h (storage_update (storage h) cache (fun c => cache_replace c q r)))
    else (Rejected (TypeError "put"), h).

(** [caches.keys()] *)
Definition caches_keys : Promise (list string) :=
  call CachesKeys ;;
  fun h => (Fulfilled (storage_keys (storage h)), h).

(** [caches.delete(name)]: fulfils with whether a cache of that name
    existed, or rejects where the host cannot delete it. *)
Definition caches_delete (name : string) : Promise bool :=
  call (CachesDelete name) ;;
  fun h =>
    match delete_error h name with
    | Some e => (Rejected e, h)
    | None => (Fulfilled (storage_has (storage h) name),
               set_storage h (storage_delete (storage h) name))
    end.

(** The request a path of the worker's own origin stands for. *)
Definition request_of_path (o path : string) : Request :=
  mkRequest "GET" (mkURL o path "") [].

Definition fetched_ok (p : Settled Response) : bool :=
  match p with
  | Fulfilled r => ok r && storable r
  | Rejected _ => false
  end.

Definition add_fetched (c : Cache) (qp : Request * Settled Response) : Cache :=
  match snd qp with
  | Fulfilled r => cache_replace c (fst qp) r
  | Rejected _ => c
  end.

(** [cache.addAll(paths)]: every path is fetched; unless every fetch
    yields an ok response that the cache takes, the promise rejects and
    nothing is stored, otherwise all the pairs are stored in one
    batch. *)
Definition cache_addAll (cache : string) (paths : list string) : Promise unit :=
  call (CacheAddAll cache paths) ;;
  fun h =>
    let requests := map (request_of_path (self_origin h)) paths in
    let fetched := map (fun q => (q, network h q)) requests in
    let h' := set_log h (log h ++ map Fetch requests) in
    if forallb (fun qp => fetched_ok (snd qp)) fetched
    then (Fulfilled tt,
          set_storage h' (storage_update (storage h') cache
                            (fun c => fold_left add_fetched fetched c)))
    else (Rejected (TypeError "addAll"), h').

(** [Promise.all(ps)], the promises having been created in list order:
    fulfils with all the values, or rejects with the first rejection. *)
Fixpoint all_settled_values {A} (rs : list (Settled A)) : Settled (list A) :=
  match rs with
  | [] => Fulfilled []
  | Rejected e :: _ => Rejected e
  | Fulfilled a :: rs' =>
      match all_settled_values rs' with
      | Fulfilled l => Fulfilled (a :: l)
      | Rejected e => Rejected e
      end
  end.

(** [xs.map(f)] for an [f] that makes a host call per element: the calls
    are all issued, in order, and each yields its own promise. *)
Fixpoint map_calls {A B} (f : A -> Promise B) (xs : list A) : M (list (Settled B)) :=
  match xs with
  | [] => ret []
  | x :: xs' =>
      r <- f x ;;
      rs <- map_calls f xs' ;;
      ret (r :: rs)
  end.

Definition Promise_all {A} (ps : M (list (Settled A))) : Promise (list A) :=
  rs <- ps ;;
  ret (all_settled_values rs).

Definition skipWaiting : M unit := call SkipWaiting.
Definition clients_claim : M unit := call ClientsClaim.

Definition showNotification (title : string) (options : NotificationOptions)
    : Promise unit :=
  call (ShowNotification title options) ;;
  resolve tt.

(** Running a detached job: the cache is opened (created when absent)
    and the callback calls [put], whose rejection nobody handles.
    Running all that are pending. *)
Definition run_job (j : Job) : M unit :=
  match j with
  | OpenThenPut name q r =>
      fun h =>
        let opened := set_storage h (storage_open (storage h) name) in
        (tt, snd (cache_put name q r opened))
  end.

Definition settle (h : Host) : Host :=
  fold_left (fun h' j => snd (run_job j h')) (pending h) (set_pending h []).

(** ** The worker *)

Definition CACHE_VERSION : string := "v1".
Definition CACHE_NAME : string := "suwi-" ++ CACHE_VERSION.

Definition STATIC_ASSETS : list string :=
  [ "/menu/";
    "/static/css/main.css";
    "/static/js/main.js";
    "/static/manifest.json" ].

(** [install]: the result is the promise handed to [event.waitUntil]. *)
Definition on_install : M (Settled unit) :=
  p <- then_ (caches_open CACHE_NAME) (fun cache =>
         console_log ["[SW] Caching static assets"] ;;
         cache_addAll cache STATIC_ASSETS) ;;
  skipWaiting ;;
  ret p.

Definition is_old_cache (name : string) : bool :=
  startsWith name "suwi-" && negb (String.eqb name CACHE_NAME).

(** The callback mapped over the old cache names. *)
Definition delete_old (name : string) : Promise bool :=
  console_log ["[SW] Deleting old cache:"; name] ;;
  caches_delete name.

(** [activate]: the result is the promise handed to [event.waitUntil]. *)
Definition on_activate : M (Settled (list bool)) :=
  p <- then_ caches_keys (fun cacheNames =>
         Promise_all (map_calls delete_old (filter is_old_cache cacheNames))) ;;
  clients_claim ;;
  ret p.

(** What the fetch listener did with the event: returned without
    [respondWith] (the browser handles the request itself), or called
    [event.respondWith] with a promise. *)
Inductive FetchOutcome :=
| NotIntercepted
| RespondWith (p : Settled Response).

Definition is_bypass (path : string) : bool :=
  startsWith path "/admin/" ||
  startsWith path "/cart/" ||
  startsWith path "/orders/" ||
  startsWith path "/accounts/" ||
  startsWith path "/telegram/".

Definition accepts_html (request : Request) : bool :=
  match headers_get (req_headers request) "accept" with
  | Some v => includes v "text/html"
  | None => false
  end.

Definition offline_html : string :=
  "<html><body><h1>Вы офлайн</h1><p>Проверьте подключение к интернету</p></body></html>".

Definition offline_page : Response :=
  mkResponse 503 [("Content-Type", "text/html; charset=utf-8")] offline_html.

Definition offline_text : Response :=
  mkResponse 503 [] "Offline".

(** The callback both strategies give to [fetch(...).then]. *)
Definition cache_successful (request : Request) (response : Response)
    : Promise Response :=
  (if ok response
   then (call (CachesOpen CACHE_NAME) ;;
         detach (OpenThenPut CACHE_NAME request (clone response)))
   else ret tt) ;;
  resolve response.

(** [fetch] listener. *)
Definition on_fetch (request : Request) : M FetchOutcome :=
  let url := url request in
  if negb (String.eqb (method request) "GET") then ret NotIntercepted
  else if is_bypass (pathname url) then ret NotIntercepted
  else if startsWith (pathname url) "/static/" then
    p <- then_ (caches_match request) (fun cached =>
           match cached with
           | Some c => resolve c
           | None => then_ (fetch request) (cache_successful request)
           end) ;;
    ret (RespondWith p)
  else
    p <- catch_ (then_ (fetch request) (cache_successful request))
           (fun _ =>
              then_ (caches_match request) (fun cached =>
                match cached with
                | Some c => resolve c
                | None =>
                    if accepts_html request
                    then resolve offline_page
                    else resolve offline_text
                end)) ;;
    ret (RespondWith p).

(** [push] listener; [None] when the event carries no data, else the
    promise handed to [event.waitUntil]. *)
Definition on_push (event_data : option PushPayload) : M (option (Settled unit)) :=
  match event_data with
  | None => ret None
  | Some data =>
      let options :=
        mkOptions (data_body data)
                  "/static/icons/icon-192x192.png"
                  "/static/icons/icon-72x72.png"
                  [100; 50; 100]
                  (or_default (data_url data) "/") in
      p <- showNotification (or_default (data_title data) "Suwi") options ;;
      ret (Some p)
  end.

(** ** Request classes *)

Definition is_get (request : Request) : bool := String.eqb (method request) "GET".

Definition is_static_request (request : Request) : bool :=
  is_get request && negb (is_bypass (pathname (url request))) &&
  startsWith (pathname (url request)) "/static/".

Definition is_page_request (request : Request) : bool :=
  is_get request && negb (is_bypass (pathname (url request))) &&
  negb (startsWith (pathname (url request)) "/static/").

Definition bypass_prefixes : list string :=
  ["/admin/"; "/cart/"; "/orders/"; "/accounts/"; "/telegram/"].

(** The live store: the cache named [CACHE_NAME]. *)
Definition live_cache (h : Host) : Cache :=
  match storage_get (storage h) CACHE_NAME with
  | Some c => c
  | None => []
  end.

Definition test_host (net : Request -> Settled Response) (cs : CacheStorage) : Host :=
  mkHost "https://suwi.example" net (fun _ => None) cs [] [].

Definition offline : Request -> Settled Response :=
  fun _ => Rejected (TypeError "Failed to fetch").

Definition get (path : string) (hs : Headers) : Request :=
  mkRequest "GET" (mkURL "https://suwi.example" path "") hs.

(** The human-readable notice of the offline page. *)
Definition offline_notice : string := "Вы офлайн".

(** ** The browser's side of the lifecycle *)

(** What the browser makes of the promise an [install] or [activate]
    listener hands to [event.waitUntil]. *)
Inductive WorkerState := Installed | Activated | Redundant.

(** Install: a rejection fails the installation. *)
Definition after_install {A} (p : Settled A) : WorkerState :=
  match p with
  | Fulfilled _ => Installed
  | Rejected _ => Redundant
  end.

(** Activate: the promise only delays activation, which goes ahead
    whichever way the promise settles. *)
Definition after_activate {A} (p : Settled A) : WorkerState :=
  match p with
  | Fulfilled _ => Activated
  | Rejected _ => Activated
  end.

(** ** Auxiliary definitions for install and activate *)

Definition asset_requests (h : Host) : list Request :=
  map (request_of_path (self_origin h)) STATIC_ASSETS.

Definition fetch_all (h : Host) (qs : list Request) : list (Request * Settled Response) :=
  map (fun q => (q, network h q)) qs.

(** What [addAll] fetched for a list of paths of the origin [o]. *)
Definition batch (o : string) (net : Request -> Settled Response)
    (paths : list string) : list (Request * Settled Response) :=
  map (fun q => (q, net q)) (map (request_of_path o) paths).

(** The host carries out the deletion of the cache [name]. *)
Definition deletable (h : Host) (name : string) : bool :=
  match delete_error h name with
  | None => true
  | Some _ => false
  end.

Definition delete_calls (names : list string) : list Call :=
  flat_map (fun name => [ConsoleLog ["[SW] Deleting old cache:"; name];
                         CachesDelete name]) names.

(** ** Sample hosts, requests and responses *)

Definition main_css : Response :=
  mkResponse 200 [("Content-Type", "text/css")] "body{margin:0}".

Definition css_online : Request -> Settled Response :=
  fun _ => Fulfilled main_css.

Definition menu_page : Response :=
  mkResponse 200 [("Content-Type", "text/html; charset=utf-8")] "<html>menu</html>".

Definition menu_online : Request -> Settled Response :=
  fun _ => Fulfilled menu_page.

Definition not_found : Response :=
  mkResponse 404 [("Content-Type", "text/html; charset=utf-8")] "<html>404</html>".

Definition serves_404 : Request -> Settled Response :=
  fun _ => Fulfilled not_found.

(** The host after [GET /menu/] was served online and its detached put
    ran, with the network gone afterwards. *)
Definition menu_cached_then_offline : Host :=
  set_network (settle (snd (on_fetch (get "/menu/" []) (test_host menu_online []))))
              offline.

Definition assets_online : Request -> Settled Response :=
  fun _ => Fulfilled main_css.

Definition manifest_missing : Request -> Settled Response :=
  fun q => if String.eqb (pathname (url q)) "/static/manifest.json"
           then Rejected (TypeError "Failed to fetch")
           else Fulfilled main_css.

Definition two_versions : CacheStorage :=
  [("suwi-v0", [(get "/menu/" [], menu_page)]);
   ("suwi-v1", [(get "/menu/" [], menu_page)]);
   ("fonts", [])].

(** Three [suwi-] stores, where the host cannot delete [suwi-v0]. *)
Definition v0_stuck : Host :=
  mkHost "https://suwi.example" offline
         (fun name => if String.eqb name "suwi-v0"
                      then Some (HostError "cannot delete") else None)
         [("suwi-v0", []); ("suwi-beta", []); ("suwi-v1", [])] [] [].

(** ** Further states of the storage *)

(** No cache other than the live store answers the request. *)
Definition others_miss (cs : CacheStorage) (q : Request) : bool :=
  forallb (fun s => String.eqb (fst s) CACHE_NAME ||
                    match cache_match (snd s) q with
                    | None => true
                    | Some _ => false
                    end) cs.


(** ** More sample data *)

Definition app_css : Response :=
  mkResponse 200 [("Content-Type", "text/css")] ".app{}".

Definition app_css_online : Request -> Settled Response :=
  fun _ => Fulfilled app_css.

Definition menu_page_old : Response :=
  mkResponse 200 [("Content-Type", "text/html; charset=utf-8")] "<html>old menu</html>".


(** ** The notification click listener *)

(** An open window of the site, as [clients.matchAll] lists it;
    [has_focus] is ['focus' in client]. *)
Record WindowClient := mkClient {
  client_url : string;
  has_focus : bool
}.

(** The host calls of the click listener; a client is named by its
    position in the list [matchAll] gave. *)
Inductive ClickCall :=
| NotificationClose
| ClientsMatchAll
| ClientFocus (index : nat)
| ClientsOpenWindow (url : string).

(** The [for ... of] loop: the first client showing exactly [url] that
    can be focused. *)
Fixpoint focus_first (clientList : list WindowClient) (url : string) (index : nat)
    : option nat :=
  match clientList with
  | [] => None
  | client :: rest =>
      if String.eqb (client_url client) url && has_focus client
      then Some index
      else focus_first rest url (S index)
  end.

(** [event.notification.data?.url || '/']: the data may be missing, and
    so may its [url]. *)
Definition click_target (notification_data : option (option string)) : string :=
  or_default (match notification_data with
              | Some u => u
              | None => None
              end) "/".

(** [notificationclick] listener: the host calls it makes, in order,
    given the windows [matchAll] lists and whether [clients.openWindow]
    exists. *)
Definition on_notificationclick (notification_data : option (option string))
    (clientList : list WindowClient) (can_open : bool) : list ClickCall :=
  let url := click_target notification_data in
  [NotificationClose; ClientsMatchAll] ++
  match focus_first clientList url 0 with
  | Some index => [ClientFocus index]
  | None => if can_open then [ClientsOpenWindow url] else []
  end.

(** The [data] a notification carries when [on_push] showed it. *)
Definition data_of_options (options : NotificationOptions) : option (option string) :=
  Some (Some (opt_data_url options)).

Definition qualifies (url : string) (client : WindowClient) : bool :=
  String.eqb (client_url client) url && has_focus client.

Definition two_windows : list WindowClient :=
  [mkClient "https://suwi.example/menu/" true;
   mkClient "https://suwi.example/orders/5/" true].

(** ** The page script: phone input *)

(** [\d] *)
Definition is_digit (c : ascii) : bool :=
  let n := nat_of_ascii c in (Nat.leb 48 n && Nat.leb n 57)%bool.

(** A character the class [[^\d+]] does not match. *)
Definition phone_char (c : ascii) : bool := is_digit c || Ascii.eqb c "+".

(** [value.replace(/[^\d+]/g, '')]; a character outside ASCII is a run
    of bytes above 127, none of them a digit or a plus sign, so it goes
    as a whole. *)
Fixpoint strip_non_phone (s : string) : string :=
  match s with
  | EmptyString => EmptyString
  | String c s' =>
      if phone_char c then String c (strip_non_phone s') else strip_non_phone s'
  end.

(** The [input] listener of a [tel] field: what it writes back for what
    was typed. *)
Definition format_phone (input : string) : string :=
  let value := strip_non_phone input in
  if negb (String.eqb value "") && negb (startsWith value "+")
  then "+" ++ value
  else value.

Fixpoint string_forall (f : ascii -> bool) (s : string) : bool :=
  match s with
  | EmptyString => true
  | String c s' => f c && string_forall f s'
  end.

Fixpoint string_filter (f : ascii -> bool) (s : string) : string :=
  match s with
  | EmptyString => EmptyString
  | String c s' => if f c then String c (string_filter f s') else string_filter f s'
  end.

(** ** The page script: cookies *)

(** How a call ends: with a value, or by throwing. *)
Inductive Completion (A : Type) :=
| Normal (a : A)
| Throws (e : Error).
Arguments Normal {A} a.
Arguments Throws {A} e.

(** [s.substring(0, n)] and [s.substring(n)] *)
Definition substring_to (n : nat) (s : string) : string := substring 0 n s.
Definition substring_from (n : nat) (s : string) : string :=
  substring n (String.length s - n) s.

Section Cookie.
(** [String.prototype.trim] and [decodeURIComponent] are the host's;
    the latter throws on a malformed escape. *)
Variable trim : string -> string.
Variable decodeURIComponent : string -> Completion string.

(** The [for] loop over the split cookie string, up to its [break]. *)
Fixpoint cookie_loop (name : string) (cookies : list string)
    : Completion (option string) :=
  match cookies with
  | [] => Normal None
  | c :: rest =>
      let cookie := trim c in
      if String.eqb (substring_to (String.length name + 1) cookie) (name ++ "=")
      then match decodeURIComponent (substring_from (String.length name + 1) cookie) with
           | Normal v => Normal (Some v)
           | Throws e => Throws e
           end
      else cookie_loop name rest
  end.

(** [getCookie(name)], reading [document.cookie]; [None] is [null]. *)
Definition getCookie (name document_cookie : string) : Completion (option string) :=
  if negb (String.eqb document_cookie "")
  then cookie_loop name (split_on ";" document_cookie)
  else Normal None.
End Cookie.

(** A cookie jar as [document.cookie] renders it: [n1=v1; n2=v2]. *)
Definition render_pair (nv : string * string) : string :=
  fst nv ++ "=" ++ snd nv.

Definition render_jar (jar : list (string * string)) : string :=
  String.concat "; " (map render_pair jar).

(** The decoded value of the first cookie of a jar that has exactly
    the given name. *)
Definition jar_lookup (decodeURIComponent : string -> Completion string)
    (name : string) (jar : list (string * string)) : Completion (option string) :=
  match find (fun nv => String.eqb (fst nv) name) jar with
  | Some nv =>
      match decodeURIComponent (snd nv) with
      | Normal v => Normal (Some v)
      | Throws e => Throws e
      end
  | None => Normal None
  end.

(** The character does not occur in the string. *)
Definition lacks (c : ascii) (s : string) : bool :=
  string_forall (fun x => negb (Ascii.eqb x c)) s.

(** Trimming ASCII spaces, for examples. *)
Fixpoint trim_start_spaces (s : string) : string :=
  match s with
  | String " " s' => trim_start_spaces s'
  | _ => s
  end.

Definition trim_spaces (s : string) : string :=
  string_rev (trim_start_spaces (string_rev (trim_start_spaces s))).

Definition sample_jar : list (string * string) :=
  [("sessionid", "abc123"); ("csrftoken2", "zzz"); ("csrftoken", "tok%3D1")].

(** ** States and answers that separate the claims from the code *)

Definition old_css : Response :=
  mkResponse 200 [("Content-Type", "text/css")] "body{margin:8px}".

(** A cache of another name holds the style sheet; the live store is
    empty. *)
Definition fonts_host : Host :=
  test_host css_online
    [("fonts", [(get "/static/css/main.css" [], old_css)]); (CACHE_NAME, [])].

(** An older store holds [/menu/] and the host cannot delete it. *)
Definition v0_menu_stuck : Host :=
  mkHost "https://suwi.example" menu_online
         (fun name => if String.eqb name "suwi-v0"
                      then Some (HostError "cannot delete") else None)
         [("suwi-v0", [(get "/menu/" [], menu_page_old)])] [] [].

(** The worker installed and activated over it, then the network
    lost. *)
Definition upgraded_offline : Host :=
  set_network (snd (on_activate (snd (on_install v0_menu_stuck)))) offline.

(** A ranged media request and its partial answer. *)
Definition clip_request : Request :=
  get "/media/clip.mp4" [("Range", "bytes=0-3")].

Definition partial_clip : Response :=
  mkResponse 206 [("Content-Range", "bytes 0-3/10")] "clip".

Definition clip_online : Request -> Settled Response :=
  fun _ => Fulfilled partial_clip.

(** ** Unfolding the monad *)

Ltac run :=
  unfold cache_successful, console_log, skipWaiting, clients_claim,
    showNotification, then_, catch_, resolve, caches_match, fetch,
    caches_open, cache_put, caches_keys, detach, call, bind, ret;
  cbn [fst snd storage pending log network self_origin delete_error
       set_storage set_pending set_log].

Lemma is_bypass_prefixes (path : string) :
  is_bypass path = existsb (startsWith path) bypass_prefixes.
Proof.
  unfold is_bypass, bypass_prefixes; cbn [existsb].
  now rewrite orb_false_r, !orb_assoc.
Qed.

Lemma is_static_request_inv (request : Request) :
  is_static_request request = true ->
  String.eqb (method request) "GET" = true /\
  is_bypass (pathname (url request)) = false /\
  startsWith (pathname (url request)) "/static/" = true.
Proof.
  unfold is_static_request, is_get; intros H.
  apply andb_true_iff in H as [H Hs]; apply andb_true_iff in H as [Hg Hb].
  apply negb_true_iff in Hb; auto.
Qed.

Lemma is_page_request_inv (request : Request) :
  is_page_request request = true ->
  String.eqb (method request) "GET" = true /\
  is_bypass (pathname (url request)) = false /\
  startsWith (pathname (url request)) "/static/" = false.
Proof.
  unfold is_page_request, is_get; intros H.
  apply andb_true_iff in H as [H Hs]; apply andb_true_iff in H as [Hg Hb].
  apply negb_true_iff in Hb; apply negb_true_iff in Hs; auto.
Qed.

(** ** The request router *)

(** C1.  A request that is not a GET, and a GET whose path starts with a
    bypass prefix, is not intercepted: the listener returns without
    [respondWith] and the host is left exactly as it was, so its log
    gains no cache read, no cache write and no fetch. *)
Theorem fetch_bypass_not_intercepted (request : Request) (h : Host) :
  method request <> "GET" \/
  (exists p, In p bypass_prefixes /\
             startsWith (pathname (url request)) p = true) ->
  on_fetch request h = (NotIntercepted, h).
Proof.
  intros [Hm | (p & Hp & Hs)]; unfold on_fetch.
  - apply String.eqb_neq in Hm; rewrite Hm; reflexivity.
  - destruct (String.eqb (method request) "GET"); [cbn [negb] | reflexivity].
    assert (Hb : is_bypass (pathname (url request)) = true).
    { rewrite is_bypass_prefixes; apply existsb_exists; eauto. }
    rewrite Hb; reflexivity.
Qed.

Lemma fetch_bypass_not_intercepted_witness :
  on_fetch (mkRequest "POST" (mkURL "https://suwi.example" "/menu/favorite/toggle/7/" "") [])
           (test_host offline [])
  = (NotIntercepted, test_host offline []) /\
  on_fetch (get "/cart/add/3/" []) (test_host offline [])
  = (NotIntercepted, test_host offline []).
Proof.
  split.
  - apply fetch_bypass_not_intercepted; left; discriminate.
  - apply fetch_bypass_not_intercepted; right; exists "/cart/"; split.
    + simpl; auto.
    + reflexivity.
Defined.

(** ** Facts about caches and the cache storage *)

Lemma url_eqb_eq (u v : URL) : url_eqb u v = true <-> u = v.
Proof.
  unfold url_eqb; destruct u as [o p s], v as [o' p' s']; cbn.
  rewrite !andb_true_iff, !String.eqb_eq; split.
  - intros [[-> ->] ->]; reflexivity.
  - intros [= -> -> ->]; auto.
Qed.

Lemma url_eqb_refl (u : URL) : url_eqb u u = true.
Proof. now apply url_eqb_eq. Qed.

Lemma request_matches_refl (q : Request) :
  String.eqb (method q) "GET" = true -> request_matches q q = true.
Proof. unfold request_matches; intros ->; apply url_eqb_refl. Qed.

Lemma find_filter_none {A} (f : A -> bool) (l : list A) :
  find f (filter (fun a => negb (f a)) l) = None.
Proof.
  induction l as [|a l IH]; cbn; [reflexivity|].
  destruct (f a) eqn:E; cbn; [assumption | now rewrite E].
Qed.

Lemma find_app {A} (f : A -> bool) (l l' : list A) :
  find f (l ++ l') = match find f l with Some a => Some a | None => find f l' end.
Proof.
  induction l as [|a l IH]; cbn; [reflexivity|].
  now destruct (f a).
Qed.

Lemma filter_filter_none {A} (f : A -> bool) (l : list A) :
  filter f (filter (fun a => negb (f a)) l) = [].
Proof.
  induction l as [|a l IH]; cbn; [reflexivity|].
  destruct (f a) eqn:E; cbn; [assumption | now rewrite E].
Qed.

(** A put is found again by the request it was stored under. *)
Lemma cache_match_replace (c : Cache) (q : Request) (r : Response) :
  String.eqb (method q) "GET" = true ->
  cache_match (cache_replace c q r) q = Some r.
Proof.
  intros Hq; unfold cache_match, cache_replace.
  rewrite find_app, (find_filter_none (fun e => request_matches q (fst e))).
  cbn; now rewrite request_matches_refl.
Qed.

(** A put under another URL does not disturb a lookup. *)
Lemma cache_match_replace_other (c : Cache) (q q' : Request) (r : Response) :
  request_matches q' q = false ->
  cache_match (cache_replace c q r) q' = cache_match c q'.
Proof.
  intros Hn; unfold cache_match, cache_replace.
  rewrite find_app; cbn [find fst]; rewrite Hn.
  assert (H : find (fun e => request_matches q' (fst e))
                (filter (fun e => negb (request_matches q (fst e))) c)
              = find (fun e => request_matches q' (fst e)) c).
  { induction c as [|e c IH]; cbn; [reflexivity|].
    destruct (request_matches q (fst e)) eqn:E; cbn.
    - destruct (request_matches q' (fst e)) eqn:E'; [|assumption].
      unfold request_matches in *.
      apply andb_true_iff in E as [_ Eu], E' as [Eq' Eu'].
      apply url_eqb_eq in Eu, Eu'; rewrite Eq', Eu', <- Eu, url_eqb_refl in Hn.
      discriminate.
    - now rewrite IH. }
  rewrite H; now destruct (find _ c).
Qed.

(** A put leaves exactly one entry for its request. *)
Lemma entries_for_replace (c : Cache) (q : Request) (r : Response) :
  String.eqb (method q) "GET" = true ->
  entries_for (cache_replace c q r) q = 1%nat.
Proof.
  intros Hq; unfold entries_for, cache_replace.
  rewrite filter_app, (filter_filter_none (fun e => request_matches q (fst e))).
  cbn; now rewrite request_matches_refl.
Qed.

Lemma storage_has_get (cs : CacheStorage) (name : string) :
  storage_has cs name = true -> exists c, storage_get cs name = Some c.
Proof.
  unfold storage_has, storage_get, storage_keys.
  induction cs as [|[n c] cs IH]; cbn; [discriminate|].
  destruct (String.eqb name n); cbn; eauto.
Qed.

Lemma storage_get_has (cs : CacheStorage) (name : string) :
  storage_has cs name = false -> storage_get cs name = None.
Proof.
  unfold storage_has, storage_get, storage_keys.
  induction cs as [|[n c] cs IH]; cbn; [reflexivity|].
  destruct (String.eqb name n); cbn; [discriminate | assumption].
Qed.

Lemma storage_get_app_new (cs : CacheStorage) (name : string) (c : Cache) :
  storage_get cs name = None ->
  storage_get (cs ++ [(name, c)])%list name = Some c.
Proof.
  unfold storage_get; rewrite find_app.
  destruct (find _ cs); cbn; [discriminate|].
  now rewrite String.eqb_refl.
Qed.

(** After [caches.open(name)] the cache exists, with the entries it had. *)
Lemma storage_get_open (cs : CacheStorage) (name : string) :
  storage_get (storage_open cs name) name
  = Some (match storage_get cs name with Some c => c | None => [] end).
Proof.
  unfold storage_open; destruct (storage_has cs name) eqn:E.
  - apply storage_has_get in E as [c E]; now rewrite E.
  - apply storage_get_has in E; rewrite E; now apply storage_get_app_new.
Qed.

Lemma storage_get_update (cs : CacheStorage) (name : string) (f : Cache -> Cache) :
  storage_get (storage_update cs name f) name = option_map f (storage_get cs name).
Proof.
  unfold storage_get, storage_update.
  induction cs as [|[n c] cs IH]; cbn; [reflexivity|].
  destruct (String.eqb name n) eqn:E; cbn; rewrite E; cbn; [reflexivity | assumption].
Qed.

(** With the live store as the origin's only cache, [caches.match] is
    the lookup in the live store. *)
Lemma storage_match_live_only (h : Host) (c : Cache) (q : Request) :
  storage h = [(CACHE_NAME, c)] ->
  storage_match (storage h) q = cache_match (live_cache h) q.
Proof.
  intros E; unfold live_cache; rewrite E; cbn.
  now destruct (cache_match c q).
Qed.

(** ** Detached cache writes *)

Lemma settle_last (h : Host) (js : list Job) (j : Job) :
  pending h = (js ++ [j])%list ->
  settle h = snd (run_job j (settle (set_pending h js))).
Proof.
  intros E; unfold settle; rewrite E, fold_left_app; reflexivity.
Qed.

(** The detached job of the fetch strategies puts its pair in the live
    store, opening the store first; a response the cache does not take
    leaves the entries as they are. *)
Lemma live_cache_run_job (h : Host) (q : Request) (r : Response) :
  live_cache (snd (run_job (OpenThenPut CACHE_NAME q r) h))
  = if storable r then cache_replace (live_cache h) q r else live_cache h.
Proof.
  unfold live_cache, run_job, cache_put; run.
  destruct (storable r); run.
  - rewrite storage_get_update, storage_get_open; reflexivity.
  - rewrite storage_get_open; reflexivity.
Qed.

Lemma network_run_job (j : Job) (h : Host) :
  network (snd (run_job j h)) = network h.
Proof.
  destruct j as [name q r]; unfold run_job, cache_put; run.
  destruct (storable r); reflexivity.
Qed.

Lemma network_settle (h : Host) : network (settle h) = network h.
Proof.
  unfold settle.
  change (network h) with (network (set_pending h [])).
  generalize (set_pending h []); induction (pending h) as [|j js IH]; intros h0.
  - reflexivity.
  - cbn [fold_left]; rewrite IH; apply network_run_job.
Qed.

(** ** The fetch listener, case by case *)

Lemma on_fetch_static_hit (request : Request) (h : Host) (c : Response) :
  is_static_request request = true ->
  storage_match (storage h) request = Some c ->
  on_fetch request h
  = (RespondWith (Fulfilled c),
     mkHost (self_origin h) (network h) (delete_error h) (storage h) (pending h)
            (log h ++ [CachesMatch request])).
Proof.
  intros Hs Hc; apply is_static_request_inv in Hs as (Hg & Hb & Hp).
  unfold on_fetch; rewrite Hg, Hb, Hp; run; cbn; rewrite Hc; reflexivity.
Qed.

Lemma on_fetch_static_miss (request : Request) (h : Host) :
  is_static_request request = true ->
  storage_match (storage h) request = None ->
  on_fetch request h
  = match network h request with
    | Fulfilled r =>
        (RespondWith (Fulfilled r),
         mkHost (self_origin h) (network h) (delete_error h) (storage h)
                (pending h ++ if ok r then [OpenThenPut CACHE_NAME request r] else [])
                (log h ++ [CachesMatch request; Fetch request]
                       ++ if ok r then [CachesOpen CACHE_NAME] else []))
    | Rejected e =>
        (RespondWith (Rejected e),
         mkHost (self_origin h) (network h) (delete_error h) (storage h) (pending h)
                (log h ++ [CachesMatch request; Fetch request]))
    end.
Proof.
  intros Hs Hc; apply is_static_request_inv in Hs as (Hg & Hb & Hp).
  unfold on_fetch; rewrite Hg, Hb, Hp; run; cbn; rewrite Hc; cbn.
  destruct (network h request) as [r|e]; cbn.
  - unfold clone; destruct (ok r); cbn;
      rewrite <- ?app_assoc, ?app_nil_r; reflexivity.
  - rewrite <- app_assoc; reflexivity.
Qed.

Lemma on_fetch_page_online (request : Request) (h : Host) (r : Response) :
  is_page_request request = true ->
  network h request = Fulfilled r ->
  on_fetch request h
  = (RespondWith (Fulfilled r),
     mkHost (self_origin h) (network h) (delete_error h) (storage h)
            (pending h ++ if ok r then [OpenThenPut CACHE_NAME request r] else [])
            (log h ++ [Fetch request] ++ if ok r then [CachesOpen CACHE_NAME] else [])).
Proof.
  intros Hs Hn; apply is_page_request_inv in Hs as (Hg & Hb & Hp).
  unfold on_fetch; rewrite Hg, Hb, Hp; run; cbn; rewrite Hn; cbn.
  unfold clone; destruct (ok r); cbn;
    rewrite <- ?app_assoc, ?app_nil_r; reflexivity.
Qed.

Lemma on_fetch_page_offline (request : Request) (h : Host) (e : Error) :
  is_page_request request = true ->
  network h request = Rejected e ->
  on_fetch request h
  = (RespondWith
       (Fulfilled
          match storage_match (storage h) request with
          | Some c => c
          | None => if accepts_html request then offline_page else offline_text
          end),
     mkHost (self_origin h) (network h) (delete_error h) (storage h) (pending h)
            (log h ++ [Fetch request; CachesMatch request])).
Proof.
  intros Hs Hn; apply is_page_request_inv in Hs as (Hg & Hb & Hp).
  unfold on_fetch; rewrite Hg, Hb, Hp; run; cbn; rewrite Hn; cbn.
  rewrite <- app_assoc; cbn.
  destruct (storage_match (storage h) request); [reflexivity|].
  destruct (accepts_html request); reflexivity.
Qed.

Lemma static_not_bypass (path : string) :
  startsWith path "/static/" = true -> is_bypass path = false.
Proof.
  unfold startsWith; intros H.
  destruct path as [|a [|b path]]; cbn [String.prefix] in H; try discriminate.
  - destruct (ascii_dec "/" a); discriminate.
  - destruct (ascii_dec "/" a) as [<-|]; [|discriminate].
    destruct (ascii_dec "s" b) as [<-|]; [|discriminate].
    reflexivity.
Qed.

Lemma is_static_request_intro (request : Request) :
  method request = "GET" ->
  startsWith (pathname (url request)) "/static/" = true ->
  is_static_request request = true.
Proof.
  intros Hm Hs; unfold is_static_request, is_get.
  now rewrite Hm, Hs, (static_not_bypass _ Hs).
Qed.

Lemma pending_run_job (j : Job) (h : Host) :
  pending (snd (run_job j h)) = pending h.
Proof.
  destruct j as [name q r]; unfold run_job, cache_put; run.
  destruct (storable r); reflexivity.
Qed.

Lemma settle_quiet (h : Host) : pending h = [] -> settle h = h.
Proof.
  intros E; unfold settle; rewrite E; cbn.
  destruct h; cbn in *; now subst.
Qed.

Lemma settle_one (h : Host) (j : Job) :
  pending h = [j] -> settle h = snd (run_job j (set_pending h [])).
Proof. intros E; unfold settle; rewrite E; reflexivity. Qed.

(** Where no other cache answers, what the live store holds is what
    [caches.match] finds. *)
Lemma storage_match_live (h : Host) (q : Request) (c : Response) :
  others_miss (storage h) q = true ->
  cache_match (live_cache h) q = Some c ->
  storage_match (storage h) q = Some c.
Proof.
  unfold live_cache, storage_get, others_miss.
  induction (storage h) as [|[n c0] cs IH]; cbn [forallb find fst snd storage_match option_map].
  - discriminate.
  - intros H; apply andb_true_iff in H as [H1 H2].
    rewrite (String.eqb_sym n CACHE_NAME) in H1.
    destruct (String.eqb CACHE_NAME n); cbn [option_map snd orb] in *.
    + now intros ->.
    + destruct (cache_match c0 q); [discriminate | now apply IH].
Qed.

(** C2 (as amended).  Cache-first for static assets.  For a GET whose
    path starts with [/static/]: (a) when [caches.match], which looks
    through every cache of the origin in creation order, finds an
    entry, that entry is the response and the lookup is the only host
    call (no fetch); in particular the entry of the store [suwi-v1] is
    the response when no other cache answers; (b) when no cache of the
    origin holds the request it is fetched and the network response is
    the response; [caches.open] is called and the put detached exactly
    when the response is ok, the storage is untouched when the response
    is handed over, and once the detached put has run the store
    [suwi-v1] answers the request with that response if the cache takes
    it, while a response the cache refuses (206, [Vary: *]) leaves the
    store as it was; (c) on a miss with a rejected fetch the rejection
    itself is the result, nothing is synthesized. *)
Theorem static_cache_first (request : Request) (h : Host) :
  method request = "GET" ->
  startsWith (pathname (url request)) "/static/" = true ->
  (forall c,
     storage_match (storage h) request = Some c ->
     on_fetch request h
     = (RespondWith (Fulfilled c),
        mkHost (self_origin h) (network h) (delete_error h) (storage h) (pending h)
               (log h ++ [CachesMatch request]))) /\
  (forall c,
     others_miss (storage h) request = true ->
     cache_match (live_cache h) request = Some c ->
     on_fetch request h
     = (RespondWith (Fulfilled c),
        mkHost (self_origin h) (network h) (delete_error h) (storage h) (pending h)
               (log h ++ [CachesMatch request]))) /\
  (forall r,
     storage_match (storage h) request = None ->
     network h request = Fulfilled r ->
     fst (on_fetch request h) = RespondWith (Fulfilled r) /\
     storage (snd (on_fetch request h)) = storage h /\
     pending (snd (on_fetch request h))
     = (pending h ++ if ok r then [OpenThenPut CACHE_NAME request r] else [])%list /\
     log (snd (on_fetch request h))
     = (log h ++ [CachesMatch request; Fetch request]
          ++ if ok r then [CachesOpen CACHE_NAME] else [])%list /\
     (ok r = true -> storable r = true ->
      cache_match (live_cache (settle (snd (on_fetch request h)))) request = Some r) /\
     (storable r = false -> pending h = [] ->
      live_cache (settle (snd (on_fetch request h))) = live_cache h)) /\
  (forall e,
     storage_match (storage h) request = None ->
     network h request = Rejected e ->
     on_fetch request h
     = (RespondWith (Rejected e),
        mkHost (self_origin h) (network h) (delete_error h) (storage h) (pending h)
               (log h ++ [CachesMatch request; Fetch request]))).
Proof.
  intros Hm Hp.
  pose proof (is_static_request_intro _ Hm Hp) as Hs.
  split; [|split; [|split]].
  - intros c Hc; now apply on_fetch_static_hit.
  - intros c Ho Hc; apply on_fetch_static_hit; [exact Hs|].
    now apply storage_match_live.
  - intros r Hc Hn.
    rewrite (on_fetch_static_miss _ _ Hs Hc), Hn; cbn [fst snd storage pending log].
    repeat split.
    + intros Hok Hst; rewrite Hok.
      erewrite settle_last by reflexivity.
      rewrite live_cache_run_job, Hst.
      apply cache_match_replace; rewrite Hm; reflexivity.
    + intros Hst Hq; rewrite Hq; cbn [app].
      destruct (ok r).
      * erewrite settle_one by reflexivity.
        rewrite live_cache_run_job, Hst; reflexivity.
      * rewrite settle_quiet by reflexivity; reflexivity.
  - intros e Hc Hn.
    now rewrite (on_fetch_static_miss _ _ Hs Hc), Hn.
Qed.

Lemma static_cache_first_witness :
  on_fetch (get "/static/css/main.css" [])
           (test_host offline [(CACHE_NAME, [(get "/static/css/main.css" [], main_css)])])
  = (RespondWith (Fulfilled main_css),
     mkHost "https://suwi.example" offline (fun _ => None)
            [(CACHE_NAME, [(get "/static/css/main.css" [], main_css)])] []
            [CachesMatch (get "/static/css/main.css" [])]) /\
  cache_match
    (live_cache (settle (snd (on_fetch (get "/static/css/main.css" [])
                                       (test_host css_online [])))))
    (get "/static/css/main.css" []) = Some main_css /\
  fst (on_fetch (get "/static/css/main.css" []) (test_host offline []))
  = RespondWith (Rejected (TypeError "Failed to fetch")).
Proof.
  split; [|split].
  - apply (proj1 (static_cache_first (get "/static/css/main.css" [])
             (test_host offline [(CACHE_NAME, [(get "/static/css/main.css" [], main_css)])])
             eq_refl eq_refl)).
    reflexivity.
  - apply (proj1 (proj2 (proj2 (static_cache_first (get "/static/css/main.css" [])
             (test_host css_online []) eq_refl eq_refl))) main_css);
      reflexivity.
  - rewrite (proj2 (proj2 (proj2 (static_cache_first (get "/static/css/main.css" [])
             (test_host offline []) eq_refl eq_refl))) (TypeError "Failed to fetch"));
      reflexivity.
Defined.

(** C2, as first stated, fails: with the store [suwi-v1] empty and a
    cache of another name holding the asset, the request is not fetched
    although the network would answer; the other cache's entry is the
    response and the lookup is the only host call. *)
Lemma static_cache_first_counterexample :
  cache_match (live_cache fonts_host) (get "/static/css/main.css" []) = None /\
  network fonts_host (get "/static/css/main.css" []) = Fulfilled main_css /\
  on_fetch (get "/static/css/main.css" []) fonts_host
  = (RespondWith (Fulfilled old_css),
     mkHost "https://suwi.example" css_online (fun _ => None)
            [("fonts", [(get "/static/css/main.css" [], old_css)]); (CACHE_NAME, [])] []
            [CachesMatch (get "/static/css/main.css" [])]) /\
  old_css <> main_css.
Proof. repeat split; discriminate. Qed.

(** C3 (as amended).  Network-first pages, cache fallback.  For a page
    request (GET, not bypassed, not under [/static/]) whose fetch
    rejects, an entry found by [caches.match], which looks through
    every cache of the origin in creation order, is the response,
    exactly as stored (status, headers and body), whatever its age; the
    host calls are the fetch and then the lookup.  In particular the
    entry of the store [suwi-v1] is the response when no other cache
    answers. *)
Theorem page_offline_cached (request : Request) (h : Host) (e : Error) (c : Response) :
  is_page_request request = true ->
  network h request = Rejected e ->
  (storage_match (storage h) request = Some c ->
   on_fetch request h
   = (RespondWith (Fulfilled c),
      mkHost (self_origin h) (network h) (delete_error h) (storage h) (pending h)
             (log h ++ [Fetch request; CachesMatch request]))) /\
  (others_miss (storage h) request = true ->
   cache_match (live_cache h) request = Some c ->
   on_fetch request h
   = (RespondWith (Fulfilled c),
      mkHost (self_origin h) (network h) (delete_error h) (storage h) (pending h)
             (log h ++ [Fetch request; CachesMatch request]))).
Proof.
  intros Hp Hn.
  assert (H : storage_match (storage h) request = Some c ->
              on_fetch request h
              = (RespondWith (Fulfilled c),
                 mkHost (self_origin h) (network h) (delete_error h) (storage h)
                        (pending h) (log h ++ [Fetch request; CachesMatch request]))).
  { intros Hc; now rewrite (on_fetch_page_offline _ _ _ Hp Hn), Hc. }
  split; [exact H|].
  intros Ho Hc; apply H; now apply storage_match_live.
Qed.

Lemma page_offline_cached_witness :
  fst (on_fetch (get "/menu/" []) menu_cached_then_offline)
  = RespondWith (Fulfilled menu_page) /\
  status menu_page = 200.
Proof.
  split; [|reflexivity].
  rewrite (proj2 (page_offline_cached (get "/menu/" []) menu_cached_then_offline
                    (TypeError "Failed to fetch") menu_page eq_refl eq_refl));
    reflexivity.
Defined.

(** C3, as first stated, fails: after an install and an activate that
    could not delete the older store [suwi-v0], the store [suwi-v1]
    holds the page fetched at install, yet an offline request for it is
    answered with the older store's entry. *)
Lemma page_offline_cached_counterexample :
  is_page_request (get "/menu/" []) = true /\
  network upgraded_offline (get "/menu/" []) = Rejected (TypeError "Failed to fetch") /\
  cache_match (live_cache upgraded_offline) (get "/menu/" []) = Some menu_page /\
  fst (on_fetch (get "/menu/" []) upgraded_offline)
  = RespondWith (Fulfilled menu_page_old) /\
  menu_page_old <> menu_page.
Proof. repeat split; discriminate. Qed.

(** C4.  Synthesized offline response.  For a page request whose fetch
    rejects and for which the cache lookup finds nothing, the response
    is synthesized and fulfilled: when the [accept] header is present and
    includes [text/html], the offline page (status 503, content type
    [text/html; charset=utf-8], a body containing the offline notice);
    otherwise status 503 with the body [Offline].  Either way the
    promise given to [respondWith] is fulfilled, never rejected. *)
Theorem page_offline_synthesized (request : Request) (h : Host) (e : Error) :
  is_page_request request = true ->
  network h request = Rejected e ->
  storage_match (storage h) request = None ->
  ((exists v, headers_get (req_headers request) "accept" = Some v /\
              includes v "text/html" = true) ->
   exists r, fst (on_fetch request h) = RespondWith (Fulfilled r) /\
             status r = 503 /\
             headers_get (resp_headers r) "Content-Type" = Some "text/html; charset=utf-8" /\
             includes (body r) offline_notice = true) /\
  (~ (exists v, headers_get (req_headers request) "accept" = Some v /\
                includes v "text/html" = true) ->
   exists r, fst (on_fetch request h) = RespondWith (Fulfilled r) /\
             status r = 503 /\
             body r = "Offline") /\
  (exists r, fst (on_fetch request h) = RespondWith (Fulfilled r)).
Proof.
  intros Hp Hn Hc.
  rewrite (on_fetch_page_offline _ _ _ Hp Hn), Hc; cbn [fst].
  unfold accepts_html.
  split; [|split].
  - intros (v & Hv & Hi); rewrite Hv, Hi.
    exists offline_page; repeat split.
  - intros Hno.
    destruct (headers_get (req_headers request) "accept") as [v|] eqn:Hv.
    + destruct (includes v "text/html") eqn:Hi.
      * exfalso; apply Hno; eauto.
      * exists offline_text; repeat split.
    + exists offline_text; repeat split.
  - eexists; reflexivity.
Qed.

Lemma page_offline_synthesized_witness :
  (exists r, fst (on_fetch (get "/menu/item/42/" [("Accept", "text/html")])
                           (test_host offline []))
             = RespondWith (Fulfilled r) /\
             status r = 503 /\
             headers_get (resp_headers r) "Content-Type" = Some "text/html; charset=utf-8" /\
             includes (body r) offline_notice = true) /\
  (exists r, fst (on_fetch (get "/menu/item/42/" [("Accept", "application/json")])
                           (test_host offline []))
             = RespondWith (Fulfilled r) /\
             status r = 503 /\
             body r = "Offline").
Proof.
  split.
  - apply (proj1 (page_offline_synthesized
                    (get "/menu/item/42/" [("Accept", "text/html")])
                    (test_host offline []) (TypeError "Failed to fetch")
                    eq_refl eq_refl eq_refl)).
    exists "text/html"; split; reflexivity.
  - apply (proj1 (proj2 (page_offline_synthesized
                    (get "/menu/item/42/" [("Accept", "application/json")])
                    (test_host offline []) (TypeError "Failed to fetch")
                    eq_refl eq_refl eq_refl))).
    intros (v & Hv & Hi).
    injection Hv as <-; discriminate Hi.
Defined.

Lemma not_ok_iff (r : Response) :
  ok r = false <-> (status r < 200 \/ 299 < status r).
Proof.
  unfold ok; rewrite andb_false_iff, !Z.leb_gt; reflexivity.
Qed.

Lemma on_fetch_storage (request : Request) (h : Host) :
  storage (snd (on_fetch request h)) = storage h.
Proof.
  unfold on_fetch.
  destruct (negb (String.eqb (method request) "GET")); [reflexivity|].
  destruct (is_bypass (pathname (url request))); [reflexivity|].
  destruct (startsWith (pathname (url request)) "/static/"); run.
  - destruct (storage_match (storage h) request); run; [reflexivity|].
    destruct (network h request) as [r|]; run; [|reflexivity].
    destruct (ok r); reflexivity.
  - destruct (network h request) as [r|]; run.
    + destruct (ok r); reflexivity.
    + destruct (storage_match (storage h) request); run; [reflexivity|].
      destruct (accepts_html request); reflexivity.
Qed.

Lemma on_fetch_pending (request : Request) (h : Host) :
  pending (snd (on_fetch request h)) = pending h \/
  exists r, network h request = Fulfilled r /\ ok r = true /\
            pending (snd (on_fetch request h))
            = (pending h ++ [OpenThenPut CACHE_NAME request r])%list.
Proof.
  unfold on_fetch.
  destruct (negb (String.eqb (method request) "GET")); [now left|].
  destruct (is_bypass (pathname (url request))); [now left|].
  destruct (startsWith (pathname (url request)) "/static/"); run.
  - destruct (storage_match (storage h) request); run; [now left|].
    destruct (network h request) as [r|]; run; [|now left].
    destruct (ok r) eqn:E; [right; exists r; auto | now left].
  - destruct (network h request) as [r|]; run.
    + destruct (ok r) eqn:E; [right; exists r; auto | now left].
    + destruct (storage_match (storage h) request); run; [now left|].
      destruct (accepts_html request); now left.
Qed.

(** C5.  Only ok responses are cached.  Whatever the request, the
    listener itself leaves the storage as it is and every put it
    detaches carries a response of the network with [ok] status.  A
    network response whose status is outside 200-299 is the response
    handed to the caller, unmodified; no put is detached for it, and no
    cache lookup follows the fetch (the offline fallback is not
    entered): for a page request the only host call is the fetch, for a
    static request that missed the cache the lookup and then the
    fetch. *)
Theorem only_ok_responses_cached (request : Request) (h : Host) :
  storage (snd (on_fetch request h)) = storage h /\
  (forall j, In j (pending (snd (on_fetch request h))) ->
     In j (pending h) \/
     exists r, j = OpenThenPut CACHE_NAME request r /\
               network h request = Fulfilled r /\
               200 <= status r <= 299) /\
  (forall r,
     network h request = Fulfilled r ->
     status r < 200 \/ 299 < status r ->
     (is_page_request request = true ->
      on_fetch request h
      = (RespondWith (Fulfilled r),
         mkHost (self_origin h) (network h) (delete_error h) (storage h) (pending h)
                (log h ++ [Fetch request]))) /\
     (is_static_request request = true ->
      storage_match (storage h) request = None ->
      on_fetch request h
      = (RespondWith (Fulfilled r),
         mkHost (self_origin h) (network h) (delete_error h) (storage h) (pending h)
                (log h ++ [CachesMatch request; Fetch request])))).
Proof.
  split; [apply on_fetch_storage | split].
  - intros j Hj.
    destruct (on_fetch_pending request h) as [E | (r & Hn & Hok & E)];
      rewrite E in Hj; [now left|].
    apply in_app_or in Hj as [Hj | [<- | []]]; [now left|].
    right; exists r; repeat split; trivial;
      unfold ok in Hok; apply andb_true_iff in Hok as [H1 H2]; lia.
  - intros r Hn Hs; apply not_ok_iff in Hs; split.
    + intros Hp.
      rewrite (on_fetch_page_online _ _ _ Hp Hn), Hs, app_nil_r; reflexivity.
    + intros Hst Hc.
      rewrite (on_fetch_static_miss _ _ Hst Hc), Hn, Hs, app_nil_r; reflexivity.
Qed.

Lemma only_ok_responses_cached_witness :
  on_fetch (get "/menu/item/42/" []) (test_host serves_404 [])
  = (RespondWith (Fulfilled not_found),
     mkHost "https://suwi.example" serves_404 (fun _ => None) [] []
            [Fetch (get "/menu/item/42/" [])]) /\
  on_fetch (get "/static/js/gone.js" []) (test_host serves_404 [])
  = (RespondWith (Fulfilled not_found),
     mkHost "https://suwi.example" serves_404 (fun _ => None) [] []
            [CachesMatch (get "/static/js/gone.js" []); Fetch (get "/static/js/gone.js" [])]).
Proof.
  split.
  - apply (proj1 (proj2 (proj2 (only_ok_responses_cached (get "/menu/item/42/" [])
                                  (test_host serves_404 []))) not_found eq_refl
                    (or_intror eq_refl))).
    reflexivity.
  - apply (proj2 (proj2 (proj2 (only_ok_responses_cached (get "/static/js/gone.js" [])
                                  (test_host serves_404 []))) not_found eq_refl
                    (or_intror eq_refl)));
      reflexivity.
Defined.

Lemma network_on_fetch (request : Request) (h : Host) :
  network (snd (on_fetch request h)) = network h.
Proof.
  unfold on_fetch.
  destruct (negb (String.eqb (method request) "GET")); [reflexivity|].
  destruct (is_bypass (pathname (url request))); [reflexivity|].
  destruct (startsWith (pathname (url request)) "/static/"); run.
  - destruct (storage_match (storage h) request); run; [reflexivity|].
    destruct (network h request) as [r|]; run; [|reflexivity].
    destruct (ok r); reflexivity.
  - destruct (network h request) as [r|]; run.
    + destruct (ok r); reflexivity.
    + destruct (storage_match (storage h) request); run; [reflexivity|].
      destruct (accepts_html request); reflexivity.
Qed.

Lemma pending_settle (h : Host) : pending (settle h) = [].
Proof.
  unfold settle.
  change ([] : list Job) with (pending (set_pending h [])) at 2.
  generalize (set_pending h []); induction (pending h) as [|j js IH]; intros h0.
  - reflexivity.
  - cbn [fold_left]; rewrite IH; apply pending_run_job.
Qed.

(** Once a successful page fetch and its detached put are through, the
    live store is some cache with that pair put last, if the cache
    takes the response. *)
Lemma page_online_settled (request : Request) (h : Host) (r : Response) :
  is_page_request request = true ->
  network h request = Fulfilled r ->
  ok r = true ->
  storable r = true ->
  exists c, live_cache (settle (snd (on_fetch request h))) = cache_replace c request r.
Proof.
  intros Hp Hn Hok Hst.
  rewrite (on_fetch_page_online _ _ _ Hp Hn), Hok; cbn [snd].
  erewrite settle_last by reflexivity.
  rewrite live_cache_run_job, Hst; eauto.
Qed.

(** A page answer the cache refuses leaves the live store as it was. *)
Lemma page_online_refused (request : Request) (h : Host) (r : Response) :
  is_page_request request = true ->
  network h request = Fulfilled r ->
  storable r = false ->
  pending h = [] ->
  live_cache (settle (snd (on_fetch request h))) = live_cache h.
Proof.
  intros Hp Hn Hst Hq.
  rewrite (on_fetch_page_online _ _ _ Hp Hn), Hq; cbn [snd app].
  destruct (ok r).
  - erewrite settle_one by reflexivity.
    rewrite live_cache_run_job, Hst; reflexivity.
  - rewrite settle_quiet by reflexivity; reflexivity.
Qed.

(** C9 (as amended).  Puts are idempotent per key.  A page request
    answered by the network with an ok response that the cache takes
    (not 206, no [Vary: *]), issued twice, leaves exactly one entry for
    the request in the live store, holding that response: after the
    first round there is one entry, and after the second there is still
    one, whether each detached put runs before the next request or both
    requests are handled before either put runs.  An ok response that
    the cache refuses is not stored: with no other job pending, the
    live store is after each round as it was. *)
Theorem page_put_idempotent (request : Request) (h : Host) (r : Response) :
  is_page_request request = true ->
  network h request = Fulfilled r ->
  200 <= status r <= 299 ->
  let once := settle (snd (on_fetch request h)) in
  let twice := settle (snd (on_fetch request once)) in
  let twice_late := settle (snd (on_fetch request (snd (on_fetch request h)))) in
  (storable r = true ->
   entries_for (live_cache once) request = 1%nat /\
   entries_for (live_cache twice) request = 1%nat /\
   cache_match (live_cache twice) request = Some r /\
   entries_for (live_cache twice_late) request = 1%nat /\
   cache_match (live_cache twice_late) request = Some r) /\
  (storable r = false -> pending h = [] ->
   live_cache once = live_cache h /\ live_cache twice = live_cache h).
Proof.
  intros Hp Hn Hs once twice twice_late.
  assert (Hok : ok r = true).
  { unfold ok; apply andb_true_iff; rewrite !Z.leb_le; lia. }
  pose proof (is_page_request_inv _ Hp) as (Hg & _ & _).
  assert (Hn1 : network once request = Fulfilled r).
  { unfold once; now rewrite network_settle, network_on_fetch. }
  assert (Hn2 : network (snd (on_fetch request h)) request = Fulfilled r).
  { now rewrite network_on_fetch. }
  split.
  - intros Hst.
    destruct (page_online_settled _ _ _ Hp Hn Hok Hst) as [c1 E1].
    destruct (page_online_settled _ _ _ Hp Hn1 Hok Hst) as [c2 E2].
    destruct (page_online_settled _ _ _ Hp Hn2 Hok Hst) as [c3 E3].
    fold once in E1; fold twice in E2; fold twice_late in E3.
    rewrite E1, E2, E3.
    repeat split;
      first [ now apply entries_for_replace | now apply cache_match_replace ].
  - intros Hst Hq.
    assert (E1 : live_cache once = live_cache h)
      by now apply (page_online_refused request h r).
    split; [exact E1|].
    unfold twice; rewrite (page_online_refused request once r); trivial.
    apply pending_settle.
Qed.

Lemma page_put_idempotent_witness :
  live_cache (settle (snd (on_fetch (get "/menu/" [])
                (settle (snd (on_fetch (get "/menu/" []) (test_host menu_online [])))))))
  = [(get "/menu/" [], menu_page)] /\
  entries_for
    (live_cache (settle (snd (on_fetch (get "/menu/" [])
                  (settle (snd (on_fetch (get "/menu/" []) (test_host menu_online []))))))))
    (get "/menu/" []) = 1%nat.
Proof.
  split; [reflexivity|].
  assert (Hs : 200 <= status menu_page <= 299) by (cbn; lia).
  apply (proj1 (page_put_idempotent (get "/menu/" []) (test_host menu_online []) menu_page
                  eq_refl eq_refl Hs) eq_refl).
Defined.

(** C9, as first stated, fails: a ranged media request is a page
    request, its partial answer (206) is ok, and after it was issued
    twice the live store holds no entry for it. *)
Lemma page_put_idempotent_counterexample :
  is_page_request clip_request = true /\
  network (test_host clip_online []) clip_request = Fulfilled partial_clip /\
  ok partial_clip = true /\
  entries_for
    (live_cache (settle (snd (on_fetch clip_request
                  (settle (snd (on_fetch clip_request (test_host clip_online []))))))))
    clip_request = 0%nat.
Proof. repeat split. Qed.

(** ** Notifications *)

(** C10.  A push payload without a title is shown under the title
    [Suwi]; the body goes into the notification options as it came
    (absent stays absent), next to the fixed icon, badge and vibration
    pattern and the target URL. *)
Theorem push_default_title (b u : option string) (h : Host) :
  on_push (Some (mkPayload None b u)) h
  = (Some (Fulfilled tt),
     mkHost (self_origin h) (network h) (delete_error h) (storage h) (pending h)
            (log h ++
             [ShowNotification "Suwi"
                (mkOptions b "/static/icons/icon-192x192.png"
                           "/static/icons/icon-72x72.png" [100; 50; 100]
                           (or_default u "/"))])).
Proof. reflexivity. Qed.

(** ** Install *)

Lemma on_install_eq (h : Host) :
  on_install h
  = if forallb (fun qp => fetched_ok (snd qp)) (fetch_all h (asset_requests h))
    then (Fulfilled tt,
          mkHost (self_origin h) (network h) (delete_error h)
                 (storage_update (storage_open (storage h) CACHE_NAME) CACHE_NAME
                    (fun c => fold_left add_fetched (fetch_all h (asset_requests h)) c))
                 (pending h)
                 (log h ++ [CachesOpen CACHE_NAME;
                            ConsoleLog ["[SW] Caching static assets"];
                            CacheAddAll CACHE_NAME STATIC_ASSETS]
                        ++ map Fetch (asset_requests h) ++ [SkipWaiting]))
    else (Rejected (TypeError "addAll"),
          mkHost (self_origin h) (network h) (delete_error h)
                 (storage_open (storage h) CACHE_NAME)
                 (pending h)
                 (log h ++ [CachesOpen CACHE_NAME;
                            ConsoleLog ["[SW] Caching static assets"];
                            CacheAddAll CACHE_NAME STATIC_ASSETS]
                        ++ map Fetch (asset_requests h) ++ [SkipWaiting])).
Proof.
  unfold on_install, cache_addAll, fetch_all, asset_requests; run.
  destruct (forallb _ _); run;
    unfold set_log, set_storage; cbn [self_origin network delete_error storage pending log];
    rewrite <- !app_assoc; reflexivity.
Qed.

Lemma request_matches_path (o p p' : string) :
  request_matches (request_of_path o p) (request_of_path o p') = String.eqb p p'.
Proof.
  unfold request_matches, request_of_path, url_eqb; cbn.
  now rewrite String.eqb_refl, andb_true_r.
Qed.

Section AddAll.
Variable o : string.
Variable net : Request -> Settled Response.

(** A response stored for a path survives the rest of the batch. *)
Lemma fold_add_keeps (rest : list string) (c : Cache) (p : string) (r : Response) :
  net (request_of_path o p) = Fulfilled r ->
  cache_match c (request_of_path o p) = Some r ->
  cache_match (fold_left add_fetched (batch o net rest) c) (request_of_path o p) = Some r.
Proof.
  intros Hn; unfold batch.
  revert c; induction rest as [|a rest IH]; intros c Hc; [exact Hc|].
  cbn [map fold_left]; apply IH.
  unfold add_fetched; cbn [fst snd].
  destruct (net (request_of_path o a)) as [r'|] eqn:Ea; [|exact Hc].
  destruct (String.eqb p a) eqn:E.
  - apply String.eqb_eq in E; subst a.
    rewrite Hn in Ea; injection Ea as <-.
    now apply cache_match_replace.
  - rewrite cache_match_replace_other; [exact Hc|].
    now rewrite request_matches_path.
Qed.

(** When every fetch of the batch is ok, each path is answered from
    the cache with the response fetched for it. *)
Lemma fold_add_all (paths : list string) (c : Cache) :
  (forall p, In p paths -> fetched_ok (net (request_of_path o p)) = true) ->
  forall p, In p paths ->
    exists r, net (request_of_path o p) = Fulfilled r /\
              cache_match (fold_left add_fetched (batch o net paths) c) (request_of_path o p)
              = Some r.
Proof.
  revert c; induction paths as [|a paths IH]; intros c Hall p Hin; [destruct Hin|].
  unfold batch; cbn [map fold_left]; fold (batch o net paths).
  destruct Hin as [<- | Hin].
  - pose proof (Hall a (or_introl eq_refl)) as Ha.
    destruct (net (request_of_path o a)) as [r|] eqn:Ea; [|discriminate].
    exists r; split; [reflexivity|].
    apply fold_add_keeps; [exact Ea|].
    unfold add_fetched; cbn [fst snd].
    now apply cache_match_replace.
  - apply IH; [|exact Hin].
    intros p' Hp'; apply Hall; now right.
Qed.
End AddAll.

Lemma forallb_fetched (h : Host) (paths : list string) :
  forallb (fun qp => fetched_ok (snd qp))
          (fetch_all h (map (request_of_path (self_origin h)) paths)) = true <->
  (forall p, In p paths ->
     fetched_ok (network h (request_of_path (self_origin h) p)) = true).
Proof.
  unfold fetch_all; rewrite forallb_forall; split.
  - intros H p Hp.
    apply (H (request_of_path (self_origin h) p,
              network h (request_of_path (self_origin h) p))).
    apply in_map_iff; eexists; split; [reflexivity|]; now apply in_map.
  - intros H [q s] Hin.
    apply in_map_iff in Hin as (q' & [= <- <-] & Hq).
    apply in_map_iff in Hq as (p & <- & Hp); cbn; auto.
Qed.

(** C6.  Install is all-or-nothing over the static asset list.  When
    the fetch of any listed path fails (it rejects, or its response is
    not ok or not one the cache takes), the promise given to
    [waitUntil] rejects, so the
    installation fails, and no entry is stored: the storage is the
    former one with the store [suwi-v1] opened, its entries as before.
    When the promise fulfils, every listed path is answered from the
    store [suwi-v1] with the response that was fetched for it; and it
    does fulfil when every fetch is ok. *)
Theorem install_all_or_nothing (h : Host) :
  ((exists p, In p STATIC_ASSETS /\
              fetched_ok (network h (request_of_path (self_origin h) p)) = false) ->
   fst (on_install h) = Rejected (TypeError "addAll") /\
   after_install (fst (on_install h)) = Redundant /\
   storage (snd (on_install h)) = storage_open (storage h) CACHE_NAME /\
   live_cache (snd (on_install h)) = live_cache h) /\
  (forall v, fst (on_install h) = Fulfilled v ->
     CACHE_NAME = "suwi-v1" /\
     forall p, In p STATIC_ASSETS ->
       exists r, network h (request_of_path (self_origin h) p) = Fulfilled r /\
                 cache_match (live_cache (snd (on_install h)))
                             (request_of_path (self_origin h) p) = Some r) /\
  ((forall p, In p STATIC_ASSETS ->
      fetched_ok (network h (request_of_path (self_origin h) p)) = true) ->
   fst (on_install h) = Fulfilled tt).
Proof.
  rewrite on_install_eq; unfold asset_requests.
  destruct (forallb _ _) eqn:E; cbn [fst snd storage].
  - pose proof (proj1 (forallb_fetched h STATIC_ASSETS) E) as Hall.
    split; [|split].
    + intros (p & Hp & Hf); rewrite (Hall p Hp) in Hf; discriminate.
    + intros _ _; split; [reflexivity|]; intros p Hp.
      unfold live_cache; cbn [storage].
      rewrite storage_get_update, storage_get_open; cbn [option_map].
      now apply fold_add_all.
    + reflexivity.
  - split; [|split].
    + intros _; repeat split.
      unfold live_cache at 1; cbn [storage].
      now rewrite storage_get_open.
    + discriminate.
    + intros Hall; apply (proj2 (forallb_fetched h STATIC_ASSETS)) in Hall; congruence.
Qed.

Lemma install_all_or_nothing_witness :
  (fst (on_install (test_host manifest_missing [])) = Rejected (TypeError "addAll") /\
   after_install (fst (on_install (test_host manifest_missing []))) = Redundant /\
   storage (snd (on_install (test_host manifest_missing []))) = [(CACHE_NAME, [])] /\
   live_cache (snd (on_install (test_host manifest_missing []))) = []) /\
  (exists r, assets_online (request_of_path "https://suwi.example" "/menu/") = Fulfilled r /\
             cache_match (live_cache (snd (on_install (test_host assets_online []))))
                         (request_of_path "https://suwi.example" "/menu/") = Some r).
Proof.
  split.
  - apply (proj1 (install_all_or_nothing (test_host manifest_missing []))).
    exists "/static/manifest.json"; split; [|reflexivity].
    simpl; auto.
  - apply (proj2 (proj1 (proj2 (install_all_or_nothing (test_host assets_online [])))
                    tt eq_refl)).
    simpl; auto.
Defined.

(** ** Activate *)

Lemma is_rejected_all {A} (rs : list (Settled A)) :
  is_rejected (all_settled_values rs) = existsb is_rejected rs.
Proof.
  induction rs as [|[a|e] rs IH]; cbn; [reflexivity| |reflexivity].
  rewrite <- IH; now destruct (all_settled_values rs).
Qed.

Lemma delete_old_eq (name : string) (h : Host) :
  delete_old name h
  = (match delete_error h name with
     | Some e => Rejected e
     | None => Fulfilled (storage_has (storage h) name)
     end,
     mkHost (self_origin h) (network h) (delete_error h)
            (if deletable h name then storage_delete (storage h) name else storage h)
            (pending h)
            (log h ++ delete_calls [name])).
Proof.
  unfold delete_old, caches_delete, deletable; run.
  destruct (delete_error h name); run; unfold set_log, set_storage;
    cbn [self_origin network delete_error storage pending log delete_calls flat_map];
    rewrite <- app_assoc; reflexivity.
Qed.

Lemma map_calls_cons {A B} (f : A -> Promise B) (x : A) (xs : list A) (h : Host) :
  map_calls f (x :: xs) h
  = let (r, h1) := f x h in
    let (rs, h2) := map_calls f xs h1 in
    (r :: rs, h2).
Proof. reflexivity. Qed.

(** The deletions of a list of caches: each is called, each cache goes
    exactly when its own deletion is carried out, and some promise
    rejects exactly when some deletion is not. *)
Lemma map_calls_delete (names : list string) (h : Host) :
  let res := map_calls delete_old names h in
  delete_error (snd res) = delete_error h /\
  storage (snd res) = fold_left storage_delete (filter (deletable h) names) (storage h) /\
  log (snd res) = (log h ++ delete_calls names)%list /\
  existsb is_rejected (fst res) = existsb (fun n => negb (deletable h n)) names.
Proof.
  revert h; induction names as [|a names IH]; intros h; cbn zeta.
  - cbn; now rewrite app_nil_r.
  - rewrite map_calls_cons, delete_old_eq.
    set (h1 := mkHost _ _ _ _ _ _).
    specialize (IH h1); cbn zeta in IH.
    destruct (map_calls delete_old names h1) as [rs h2]; unfold ret; cbn [fst snd] in *.
    destruct IH as (Hd & Hs & Hl & Hr).
    assert (Ed : deletable h1 = deletable h) by reflexivity.
    rewrite Hd, Hs, Hl, Ed; cbn [delete_error storage log h1 existsb filter].
    repeat split.
    + destruct (deletable h a); reflexivity.
    + change (delete_calls (a :: names)) with (delete_calls [a] ++ delete_calls names)%list.
      now rewrite app_assoc.
    + rewrite Hr; f_equal.
      unfold deletable; now destruct (delete_error h a).
Qed.

Lemma filter_filter {A} (p q : A -> bool) (l : list A) :
  filter p (filter q l) = filter (fun a => q a && p a) l.
Proof.
  induction l as [|a l IH]; cbn; [reflexivity|].
  destruct (q a); cbn; [destruct (p a)|]; now rewrite IH.
Qed.

Lemma fold_storage_delete (names : list string) (cs : CacheStorage) :
  fold_left storage_delete names cs
  = filter (fun s => negb (existsb (String.eqb (fst s)) names)) cs.
Proof.
  revert cs; induction names as [|d names IH]; intros cs; cbn [fold_left existsb].
  - cbn; induction cs as [|s cs IHc]; cbn; [reflexivity | now rewrite <- IHc].
  - rewrite IH; unfold storage_delete; rewrite filter_filter.
    apply filter_ext; intros s.
    now rewrite negb_orb, (String.eqb_sym d).
Qed.

Lemma existsb_filter_keys (p : string -> bool) (names : list string) (n : string) :
  In n names -> existsb (String.eqb n) (filter p names) = p n.
Proof.
  intros Hin; destruct (p n) eqn:E.
  - apply existsb_exists; exists n; split; [|apply String.eqb_refl].
    apply filter_In; auto.
  - destruct (existsb _ _) eqn:X; [|reflexivity].
    apply existsb_exists in X as (m & Hm & Hnm).
    apply String.eqb_eq in Hnm; subst m.
    apply filter_In in Hm as [_ Hm]; congruence.
Qed.

(** The storage, the log and the promise after [activate]. *)
Lemma on_activate_spec (h : Host) :
  storage (snd (on_activate h))
  = filter (fun s => negb (is_old_cache (fst s) && deletable h (fst s))) (storage h) /\
  log (snd (on_activate h))
  = (log h ++ [CachesKeys]
       ++ delete_calls (filter is_old_cache (storage_keys (storage h)))
       ++ [ClientsClaim])%list /\
  is_rejected (fst (on_activate h))
  = existsb (fun n => negb (deletable h n)) (filter is_old_cache (storage_keys (storage h))).
Proof.
  unfold on_activate, Promise_all, then_, caches_keys, clients_claim, call, bind, ret.
  cbn [fst snd storage].
  pose proof (map_calls_delete (filter is_old_cache (storage_keys (storage h)))
                (set_log h (log h ++ [CachesKeys]))) as H; cbn zeta in H.
  destruct (map_calls delete_old _ _) as [rs h2]; cbn [fst snd] in *.
  destruct H as (_ & Hs & Hl & Hr); run.
  rewrite Hs, Hl, is_rejected_all, Hr; cbn [storage log set_log].
  repeat split.
  - change (deletable (set_log h (log h ++ [CachesKeys]))) with (deletable h).
    rewrite fold_storage_delete, filter_filter.
    apply filter_ext_in; intros s Hin; f_equal.
    apply existsb_filter_keys, in_map, Hin.
  - now rewrite <- !app_assoc.
Qed.

Lemma CACHE_NAME_eq : CACHE_NAME = "suwi-v1".
Proof. reflexivity. Qed.

(** C7.  Activation cleanup.  With every deletion carried out by the
    host, the storage after [activate] is the storage before without
    the stores whose name starts with [suwi-] and differs from
    [suwi-v1]: those are gone, every other store (the store [suwi-v1],
    stores of other names) is there with its entries, in the same
    order.  In particular, of [suwi-v0] and [suwi-v1] only [suwi-v1]
    remains. *)
Theorem activate_deletes_stale (h : Host) :
  (forall name, delete_error h name = None) ->
  storage (snd (on_activate h))
  = filter (fun s => negb (startsWith (fst s) "suwi-" &&
                           negb (String.eqb (fst s) "suwi-v1")))
           (storage h) /\
  (forall c0 c1,
     storage h = [("suwi-v0", c0); ("suwi-v1", c1)] ->
     storage (snd (on_activate h)) = [("suwi-v1", c1)]).
Proof.
  intros Hd.
  assert (E : storage (snd (on_activate h))
              = filter (fun s => negb (startsWith (fst s) "suwi-" &&
                                       negb (String.eqb (fst s) "suwi-v1")))
                       (storage h)).
  { destruct (on_activate_spec h) as (Hs & _ & _); rewrite Hs.
    apply filter_ext; intros s.
    unfold deletable; rewrite Hd, andb_true_r; reflexivity. }
  split; [exact E|].
  intros c0 c1 Hst; rewrite E, Hst; reflexivity.
Qed.

Lemma activate_deletes_stale_witness :
  storage (snd (on_activate (test_host offline two_versions)))
  = [("suwi-v1", [(get "/menu/" [], menu_page)]); ("fonts", [])].
Proof.
  rewrite (proj1 (activate_deletes_stale (test_host offline two_versions)
                    (fun _ => eq_refl))).
  reflexivity.
Defined.

(** C8.  Stale-store deletion is best-effort per store.  Whatever
    deletions the host fails to carry out: a deletion is called for
    every stale store; a stale store is gone exactly when its own
    deletion is carried out, whatever happened to the others, and all
    other stores stay; the listener still claims the clients; and the
    worker is activated, although the promise handed to [waitUntil]
    rejects when some deletion does. *)
Theorem activate_deletion_best_effort (h : Host) :
  (forall name, In name (storage_keys (storage h)) ->
     is_old_cache name = true ->
     In (CachesDelete name) (log (snd (on_activate h)))) /\
  storage (snd (on_activate h))
  = filter (fun s => negb (is_old_cache (fst s) && deletable h (fst s))) (storage h) /\
  In ClientsClaim (log (snd (on_activate h))) /\
  is_rejected (fst (on_activate h))
  = existsb (fun name => negb (deletable h name))
            (filter is_old_cache (storage_keys (storage h))) /\
  after_activate (fst (on_activate h)) = Activated.
Proof.
  destruct (on_activate_spec h) as (Hs & Hl & Hr).
  split; [|split; [exact Hs | split; [|split; [exact Hr|]]]].
  - intros name Hin Hold; rewrite Hl.
    apply in_or_app; right; apply in_or_app; right; apply in_or_app; left.
    unfold delete_calls; apply in_flat_map.
    exists name; split; [apply filter_In; auto | cbn; auto].
  - rewrite Hl, !app_assoc; apply in_or_app; right; cbn; auto.
  - now destruct (fst (on_activate h)).
Qed.

Lemma activate_deletion_best_effort_witness :
  In (CachesDelete "suwi-beta") (log (snd (on_activate v0_stuck))) /\
  storage_keys (storage (snd (on_activate v0_stuck))) = ["suwi-v0"; "suwi-v1"] /\
  fst (on_activate v0_stuck) = Rejected (HostError "cannot delete") /\
  after_activate (fst (on_activate v0_stuck)) = Activated.
Proof.
  split; [|repeat split].
  apply (proj1 (activate_deletion_best_effort v0_stuck) "suwi-beta").
  - simpl; auto.
  - reflexivity.
Defined.

(** * Beyond the claims: how the listeners compose *)

(** ** The router *)

Lemma on_fetch_responds (request : Request) (h : Host) :
  String.eqb (method request) "GET" = true ->
  is_bypass (pathname (url request)) = false ->
  exists p, fst (on_fetch request h) = RespondWith p.
Proof.
  intros Hg Hb; unfold on_fetch; rewrite Hg, Hb; cbn [negb].
  destruct (startsWith (pathname (url request)) "/static/"); unfold bind, ret;
    match goal with |- context [let (_, _) := ?m h in _] => destruct (m h) end;
    eexists; reflexivity.
Qed.

(** The worker answers exactly the GET requests outside the bypass
    prefixes: the listener returns without [respondWith] if and only if
    the method is not GET or the path starts with a bypass prefix. *)
Theorem fetch_intercepts_iff (request : Request) (h : Host) :
  fst (on_fetch request h) = NotIntercepted <->
  (method request <> "GET" \/
   exists p, In p bypass_prefixes /\ startsWith (pathname (url request)) p = true).
Proof.
  split.
  - intros H.
    destruct (String.eqb (method request) "GET") eqn:Hg.
    + right.
      destruct (is_bypass (pathname (url request))) eqn:Hb.
      * rewrite is_bypass_prefixes in Hb; apply existsb_exists in Hb; exact Hb.
      * destruct (on_fetch_responds request h Hg Hb) as [p Hp]; congruence.
    + left; now apply String.eqb_neq.
  - intros [Hm | (p & Hp & Hs)]; unfold on_fetch.
    + apply String.eqb_neq in Hm; rewrite Hm; reflexivity.
    + destruct (String.eqb (method request) "GET"); [cbn [negb] | reflexivity].
      assert (Hb : is_bypass (pathname (url request)) = true).
      { rewrite is_bypass_prefixes; apply existsb_exists; eauto. }
      rewrite Hb; reflexivity.
Qed.

Lemma fetch_intercepts_iff_witness :
  fst (on_fetch (get "/orders/17/" []) (test_host menu_online [])) = NotIntercepted.
Proof.
  apply (proj2 (fetch_intercepts_iff (get "/orders/17/" []) (test_host menu_online []))).
  right; exists "/orders/"; split; [simpl; auto | reflexivity].
Defined.

(** ** Lookups after a put *)

Lemma storage_match_none_others (cs : CacheStorage) (q : Request) :
  storage_match cs q = None -> others_miss cs q = true.
Proof.
  unfold others_miss; induction cs as [|[n c] cs IH];
    cbn [storage_match forallb fst snd]; [reflexivity|].
  destruct (cache_match c q); [discriminate|].
  intros H; rewrite (IH H), orb_true_r; reflexivity.
Qed.

Lemma others_miss_open (cs : CacheStorage) (q : Request) :
  others_miss cs q = true -> others_miss (storage_open cs CACHE_NAME) q = true.
Proof.
  unfold storage_open, others_miss; intros H.
  destruct (storage_has cs CACHE_NAME); [exact H|].
  rewrite forallb_app, H; cbn [forallb fst]; now rewrite String.eqb_refl.
Qed.

Lemma others_miss_update (cs : CacheStorage) (q : Request) (f : Cache -> Cache) :
  others_miss cs q = true -> others_miss (storage_update cs CACHE_NAME f) q = true.
Proof.
  unfold others_miss, storage_update.
  induction cs as [|[n c] cs IH]; cbn [forallb map fst snd]; [reflexivity|].
  intros H; apply andb_true_iff in H as [H1 H2].
  rewrite (IH H2), andb_true_r.
  rewrite (String.eqb_sym CACHE_NAME n).
  destruct (String.eqb n CACHE_NAME) eqn:E; cbn [fst snd]; [now rewrite E|].
  rewrite E in *; exact H1.
Qed.

(** When only the live store can answer and an update makes it answer
    with [r], [caches.match] answers with [r]. *)
Lemma storage_match_update (cs : CacheStorage) (q : Request) (r : Response)
    (f : Cache -> Cache) :
  others_miss cs q = true ->
  storage_has cs CACHE_NAME = true ->
  (forall c, cache_match (f c) q = Some r) ->
  storage_match (storage_update cs CACHE_NAME f) q = Some r.
Proof.
  unfold others_miss, storage_has, storage_keys, storage_update; intros Ho Hh Hf.
  induction cs as [|[n c] cs IH]; cbn [forallb map fst snd existsb] in *; [discriminate|].
  apply andb_true_iff in Ho as [H1 H2].
  destruct (String.eqb CACHE_NAME n) eqn:E; cbn [storage_match fst snd].
  - now rewrite Hf.
  - rewrite String.eqb_sym, E in H1; cbn [orb] in *.
    destruct (cache_match c q); [discriminate|].
    now apply IH.
Qed.

Lemma storage_has_open (cs : CacheStorage) (name : string) :
  storage_has (storage_open cs name) name = true.
Proof.
  unfold storage_open; destruct (storage_has cs name) eqn:E; [exact E|].
  unfold storage_has, storage_keys; rewrite map_app, existsb_app; cbn.
  now rewrite String.eqb_refl, orb_true_r.
Qed.

Lemma storage_match_open_put (cs : CacheStorage) (q : Request) (r : Response) :
  String.eqb (method q) "GET" = true ->
  others_miss cs q = true ->
  storage_match (storage_update (storage_open cs CACHE_NAME) CACHE_NAME
                   (fun c => cache_replace c q r)) q = Some r.
Proof.
  intros Hg Ho; apply storage_match_update.
  - now apply others_miss_open.
  - apply storage_has_open.
  - intros c; now apply cache_match_replace.
Qed.

Lemma storage_run_job (h : Host) (q : Request) (r : Response) :
  storable r = true ->
  storage (snd (run_job (OpenThenPut CACHE_NAME q r) h))
  = storage_update (storage_open (storage h) CACHE_NAME) CACHE_NAME
      (fun c => cache_replace c q r).
Proof.
  intros Hst; unfold run_job, cache_put; run; rewrite Hst; reflexivity.
Qed.

(** ** A request, its detached put, and the next request *)

(** A static asset that was fetched once with an ok response that the
    cache takes (not 206, no [Vary: *]) is, once its put has run,
    served from the cache: the next identical request gets that
    response whatever the network would now say, and the cache lookup
    is the listener's only host call. *)
Theorem static_second_request_cached (request : Request) (h : Host) (r : Response)
    (net' : Request -> Settled Response) :
  method request = "GET" ->
  startsWith (pathname (url request)) "/static/" = true ->
  pending h = [] ->
  storage_match (storage h) request = None ->
  network h request = Fulfilled r ->
  200 <= status r <= 299 ->
  storable r = true ->
  let h1 := set_network (settle (snd (on_fetch request h))) net' in
  on_fetch request h1
  = (RespondWith (Fulfilled r),
     mkHost (self_origin h1) net' (delete_error h1) (storage h1) (pending h1)
            (log h1 ++ [CachesMatch request])).
Proof.
  intros Hm Hp Hq Hc Hn Hs Hsto h1.
  pose proof (is_static_request_intro _ Hm Hp) as Hst.
  assert (Hok : ok r = true).
  { unfold ok; apply andb_true_iff; rewrite !Z.leb_le; lia. }
  assert (Hg : String.eqb (method request) "GET" = true) by now rewrite Hm.
  assert (E : storage_match (storage h1) request = Some r).
  { unfold h1; rewrite (on_fetch_static_miss _ _ Hst Hc), Hn, Hok, Hq; cbn [snd app].
    erewrite settle_one by reflexivity.
    cbn [set_network storage]; rewrite storage_run_job by exact Hsto.
    cbn [set_pending storage].
    apply storage_match_open_put; [exact Hg|].
    now apply storage_match_none_others. }
  now rewrite (on_fetch_static_hit _ _ _ Hst E).
Qed.

Lemma static_second_request_cached_witness :
  fst (on_fetch (get "/static/css/app.css" [])
         (set_network (settle (snd (on_fetch (get "/static/css/app.css" [])
                                             (test_host app_css_online []))))
                      offline))
  = RespondWith (Fulfilled app_css).
Proof.
  rewrite (static_second_request_cached (get "/static/css/app.css" [])
             (test_host app_css_online []) app_css offline
             eq_refl eq_refl eq_refl eq_refl eq_refl).
  - reflexivity.
  - cbn; lia.
  - reflexivity.
Defined.

(** Network first keeps the fallback fresh.  When only the live store
    can answer a page request, an ok answer of the network that the
    cache takes (not 206, no [Vary: *]) is returned without the cache
    being read, whatever entry the store holds, the host calls being
    the fetch and [caches.open]; and once the put has run, a later
    request that finds the network down gets that same answer from the
    cache, not an older entry. *)
Theorem page_fallback_serves_latest (request : Request) (h : Host) (r : Response)
    (net' : Request -> Settled Response) (e : Error) :
  is_page_request request = true ->
  pending h = [] ->
  others_miss (storage h) request = true ->
  network h request = Fulfilled r ->
  200 <= status r <= 299 ->
  storable r = true ->
  net' request = Rejected e ->
  fst (on_fetch request h) = RespondWith (Fulfilled r) /\
  log (snd (on_fetch request h))
  = (log h ++ [Fetch request; CachesOpen CACHE_NAME])%list /\
  fst (on_fetch request (set_network (settle (snd (on_fetch request h))) net'))
  = RespondWith (Fulfilled r).
Proof.
  intros Hp Hq Ho Hn Hs Hsto Hoff.
  assert (Hok : ok r = true).
  { unfold ok; apply andb_true_iff; rewrite !Z.leb_le; lia. }
  pose proof (is_page_request_inv _ Hp) as (Hg & _ & _).
  rewrite (on_fetch_page_online _ _ _ Hp Hn), Hok, Hq; cbn [fst snd app log].
  repeat split.
  erewrite settle_one by reflexivity.
  erewrite on_fetch_page_offline; [|exact Hp | exact Hoff].
  cbn [fst set_network storage]; rewrite storage_run_job by exact Hsto.
  cbn [set_pending storage].
  now rewrite storage_match_open_put.
Qed.

Lemma page_fallback_serves_latest_witness :
  fst (on_fetch (get "/menu/" [])
         (set_network
            (settle (snd (on_fetch (get "/menu/" [])
                       (test_host menu_online
                          [(CACHE_NAME, [(get "/menu/" [], menu_page_old)])]))))
            offline))
  = RespondWith (Fulfilled menu_page).
Proof.
  apply (page_fallback_serves_latest (get "/menu/" [])
           (test_host menu_online [(CACHE_NAME, [(get "/menu/" [], menu_page_old)])])
           menu_page offline (TypeError "Failed to fetch")
           eq_refl eq_refl eq_refl eq_refl);
    [cbn; lia | reflexivity | reflexivity].
Defined.

(** A page that the network answered with a status outside 200-299 is
    not available offline: with nothing cached for it before, a later
    request that finds the network down gets the synthesized 503
    response, not the earlier error page. *)
Theorem not_ok_page_not_cached (request : Request) (h : Host) (r : Response)
    (net' : Request -> Settled Response) (e : Error) :
  is_page_request request = true ->
  pending h = [] ->
  storage_match (storage h) request = None ->
  network h request = Fulfilled r ->
  status r < 200 \/ 299 < status r ->
  net' request = Rejected e ->
  fst (on_fetch request h) = RespondWith (Fulfilled r) /\
  fst (on_fetch request (set_network (settle (snd (on_fetch request h))) net'))
  = RespondWith (Fulfilled (if accepts_html request then offline_page else offline_text)).
Proof.
  intros Hp Hq Hc Hn Hs Hoff.
  apply not_ok_iff in Hs.
  rewrite (on_fetch_page_online _ _ _ Hp Hn), Hs, Hq; cbn [fst snd app].
  split; [reflexivity|].
  rewrite settle_quiet by reflexivity.
  erewrite on_fetch_page_offline; [|exact Hp | exact Hoff].
  cbn [fst set_network storage]; now rewrite Hc.
Qed.

Lemma not_ok_page_not_cached_witness :
  fst (on_fetch (get "/menu/item/42/" [("Accept", "text/html")])
         (set_network
            (settle (snd (on_fetch (get "/menu/item/42/" [("Accept", "text/html")])
                                   (test_host serves_404 []))))
            offline))
  = RespondWith (Fulfilled offline_page).
Proof.
  apply (proj2 (not_ok_page_not_cached (get "/menu/item/42/" [("Accept", "text/html")])
                  (test_host serves_404 []) not_found offline (TypeError "Failed to fetch")
                  eq_refl eq_refl eq_refl eq_refl (or_intror eq_refl) eq_refl)).
Defined.

(** ** Install and the entries that were there *)

Lemma storage_get_update_other (cs : CacheStorage) (n name : string) (f : Cache -> Cache) :
  String.eqb n name = false ->
  storage_get (storage_update cs n f) name = storage_get cs name.
Proof.
  intros Hn; unfold storage_get, storage_update.
  induction cs as [|[m c] cs IH]; cbn [map find fst snd]; [reflexivity|].
  destruct (String.eqb n m) eqn:E; cbn [fst snd].
  - apply String.eqb_eq in E; subst m.
    rewrite (String.eqb_sym name n), Hn; exact IH.
  - destruct (String.eqb name m); [reflexivity | exact IH].
Qed.

Lemma storage_get_open_other (cs : CacheStorage) (n name : string) :
  String.eqb n name = false ->
  storage_get (storage_open cs n) name = storage_get cs name.
Proof.
  intros Hn; unfold storage_open.
  destruct (storage_has cs n); [reflexivity|].
  unfold storage_get; rewrite find_app.
  destruct (find _ cs); [reflexivity|].
  cbn [find fst]; now rewrite (String.eqb_sym name n), Hn.
Qed.

Lemma fold_add_other (o : string) (net : Request -> Settled Response)
    (paths : list string) (c : Cache) (q : Request) :
  (forall p, In p paths -> request_matches q (request_of_path o p) = false) ->
  cache_match (fold_left add_fetched (batch o net paths) c) q = cache_match c q.
Proof.
  unfold batch; revert c; induction paths as [|a paths IH]; intros c Hq; [reflexivity|].
  cbn [map fold_left]; rewrite IH by (intros p Hp; apply Hq; now right).
  unfold add_fetched; cbn [fst snd].
  destruct (net (request_of_path o a)); [|reflexivity].
  apply cache_match_replace_other, Hq; now left.
Qed.

Lemma entries_for_replace_other (c : Cache) (q q' : Request) (r : Response) :
  request_matches q' q = false ->
  entries_for (cache_replace c q r) q' = entries_for c q'.
Proof.
  intros Hn; unfold entries_for, cache_replace.
  rewrite filter_app; cbn [filter fst]; rewrite Hn, app_nil_r, filter_filter.
  f_equal; apply filter_ext_in; intros e _.
  destruct (request_matches q' (fst e)) eqn:E'; [|apply andb_false_r].
  rewrite andb_true_r.
  destruct (request_matches q (fst e)) eqn:E; [|reflexivity].
  unfold request_matches in *.
  apply andb_true_iff in E as [_ Eu], E' as [Eq' Eu'].
  apply url_eqb_eq in Eu, Eu'; rewrite Eq', Eu', <- Eu, url_eqb_refl in Hn.
  discriminate.
Qed.

Lemma fold_add_entries_keep (o : string) (net : Request -> Settled Response)
    (rest : list string) (c : Cache) (p : string) :
  entries_for c (request_of_path o p) = 1%nat ->
  entries_for (fold_left add_fetched (batch o net rest) c) (request_of_path o p) = 1%nat.
Proof.
  unfold batch; revert c; induction rest as [|a rest IH]; intros c Hc; [exact Hc|].
  cbn [map fold_left]; apply IH.
  unfold add_fetched; cbn [fst snd].
  destruct (net (request_of_path o a)) as [r'|]; [|exact Hc].
  destruct (String.eqb p a) eqn:E.
  - apply String.eqb_eq in E; subst a.
    now apply entries_for_replace.
  - rewrite entries_for_replace_other; [exact Hc|].
    now rewrite request_matches_path.
Qed.

Lemma fold_add_entries (o : string) (net : Request -> Settled Response)
    (paths : list string) (c : Cache) :
  (forall p, In p paths -> fetched_ok (net (request_of_path o p)) = true) ->
  forall p, In p paths ->
    entries_for (fold_left add_fetched (batch o net paths) c) (request_of_path o p) = 1%nat.
Proof.
  revert c; induction paths as [|a paths IH]; intros c Hall p Hin; [destruct Hin|].
  destruct Hin as [<- | Hin].
  - pose proof (Hall a (or_introl eq_refl)) as Ha.
    change (batch o net (a :: paths))
      with ((request_of_path o a, net (request_of_path o a)) :: batch o net paths).
    cbn [fold_left].
    apply fold_add_entries_keep.
    unfold add_fetched; cbn [fst snd].
    destruct (net (request_of_path o a)) as [r|]; [|discriminate].
    now apply entries_for_replace.
  - change (batch o net (a :: paths))
      with ((request_of_path o a, net (request_of_path o a)) :: batch o net paths).
    cbn [fold_left]; apply IH; [|exact Hin].
    intros p' Hp'; apply Hall; now right.
Qed.

Lemma live_cache_install (h : Host) :
  live_cache (snd (on_install h))
  = if forallb (fun qp => fetched_ok (snd qp)) (fetch_all h (asset_requests h))
    then fold_left add_fetched (batch (self_origin h) (network h) STATIC_ASSETS)
                   (live_cache h)
    else live_cache h.
Proof.
  rewrite on_install_eq; unfold live_cache.
  destruct (forallb _ _); cbn [snd storage].
  - rewrite storage_get_update, storage_get_open; reflexivity.
  - now rewrite storage_get_open.
Qed.

(** Install adds to the live store and takes nothing away.  Whether it
    succeeds or fails, every cache of another name is as it was, the
    detached jobs are as they were, and a request that is none of the
    listed assets is answered by the live store as before. *)
Theorem install_keeps_other_entries (h : Host) :
  (forall name, name <> CACHE_NAME ->
     storage_get (storage (snd (on_install h))) name = storage_get (storage h) name) /\
  (forall q,
     (forall p, In p STATIC_ASSETS ->
        request_matches q (request_of_path (self_origin h) p) = false) ->
     cache_match (live_cache (snd (on_install h))) q = cache_match (live_cache h) q) /\
  pending (snd (on_install h)) = pending h.
Proof.
  split; [|split].
  - intros name Hn.
    assert (E : String.eqb CACHE_NAME name = false).
    { apply String.eqb_neq; congruence. }
    rewrite on_install_eq; destruct (forallb _ _); cbn [snd storage].
    + now rewrite storage_get_update_other, storage_get_open_other.
    + now rewrite storage_get_open_other.
  - intros q Hq; rewrite live_cache_install.
    destruct (forallb _ _); [|reflexivity].
    now apply fold_add_other.
  - rewrite on_install_eq; now destruct (forallb _ _).
Qed.

Lemma install_keeps_other_entries_witness :
  cache_match
    (live_cache (snd (on_install
       (test_host assets_online [(CACHE_NAME, [(get "/menu/item/42/" [], menu_page)])]))))
    (get "/menu/item/42/" [])
  = Some menu_page.
Proof.
  rewrite (proj1 (proj2 (install_keeps_other_entries
             (test_host assets_online [(CACHE_NAME, [(get "/menu/item/42/" [], menu_page)])])))
             (get "/menu/item/42/" [])).
  - reflexivity.
  - intros p Hp; simpl in Hp.
    destruct Hp as [<- | [<- | [<- | [<- | []]]]]; reflexivity.
Defined.

(** A successful install leaves exactly one entry per listed asset in
    the live store, whatever the store held before; installing again
    does not pile up entries. *)
Theorem install_one_entry_per_asset (h : Host) (v : unit) :
  fst (on_install h) = Fulfilled v ->
  forall p, In p STATIC_ASSETS ->
    entries_for (live_cache (snd (on_install h)))
                (request_of_path (self_origin h) p) = 1%nat.
Proof.
  intros Hf p Hp; rewrite live_cache_install.
  rewrite on_install_eq in Hf; unfold asset_requests in *.
  destruct (forallb _ _) eqn:E; [|discriminate].
  pose proof (proj1 (forallb_fetched h STATIC_ASSETS) E) as Hall.
  now apply fold_add_entries.
Qed.

Lemma install_one_entry_per_asset_witness :
  entries_for
    (live_cache (snd (on_install (snd (on_install (test_host assets_online []))))))
    (request_of_path "https://suwi.example" "/static/js/main.js") = 1%nat.
Proof.
  apply (install_one_entry_per_asset (snd (on_install (test_host assets_online []))) tt).
  - reflexivity.
  - simpl; auto.
Defined.

(** ** Activate and the stores it leaves *)

Lemma storage_get_filter (P : string -> bool) (cs : CacheStorage) (name : string) :
  P name = true ->
  storage_get (filter (fun s => P (fst s)) cs) name = storage_get cs name.
Proof.
  intros HP; unfold storage_get.
  induction cs as [|[n c] cs IH]; cbn [filter find fst]; [reflexivity|].
  destruct (String.eqb name n) eqn:E.
  - apply String.eqb_eq in E; subst n; rewrite HP; cbn [find fst].
    now rewrite String.eqb_refl.
  - destruct (P n); cbn [find fst]; [now rewrite E | exact IH].
Qed.


(** Activate never touches a store that is not stale: the live store
    and every store outside the [suwi-] family keep their entries,
    whichever deletions the host carries out or fails. *)
Theorem activate_keeps_live_store (h : Host) (name : string) :
  is_old_cache name = false ->
  storage_get (storage (snd (on_activate h))) name = storage_get (storage h) name.
Proof.
  intros Hn.
  destruct (on_activate_spec h) as (Hs & _ & _); rewrite Hs.
  apply (storage_get_filter (fun n => negb (is_old_cache n && deletable h n))).
  now rewrite Hn.
Qed.

Lemma activate_keeps_live_store_witness :
  live_cache (snd (on_activate (test_host offline two_versions)))
  = [(get "/menu/" [], menu_page)].
Proof.
  unfold live_cache.
  rewrite (activate_keeps_live_store (test_host offline two_versions) CACHE_NAME eq_refl).
  reflexivity.
Defined.



(** ** From install to the first offline request *)






Lemma is_old_cache_live : is_old_cache CACHE_NAME = false.
Proof. reflexivity. Qed.




(** ** Push notifications and their click *)

Lemma or_default_nonempty (v : option string) (d : string) :
  d <> "" -> or_default v d <> "".
Proof.
  intros Hd; unfold or_default.
  destruct v as [s|]; [|exact Hd].
  destruct (String.eqb s "") eqn:E; [exact Hd|].
  now apply String.eqb_neq.
Qed.

Lemma or_default_given (s d : string) : s <> "" -> or_default (Some s) d = s.
Proof.
  intros Hs; unfold or_default; apply String.eqb_neq in Hs; now rewrite Hs.
Qed.

(** A push with data shows exactly one notification, and neither its
    title nor its target URL is ever empty: a missing or empty title
    becomes [Suwi], a missing or empty [url] becomes [/], and a given
    non-empty one is used as it is.  A push without data shows
    nothing. *)
Theorem push_title_and_target (data : PushPayload) (h : Host) :
  on_push None h = (None, h) /\
  exists title options,
    on_push (Some data) h
    = (Some (Fulfilled tt),
       mkHost (self_origin h) (network h) (delete_error h) (storage h) (pending h)
              (log h ++ [ShowNotification title options])) /\
    title <> "" /\
    opt_data_url options <> "" /\
    (forall t, data_title data = Some t -> t <> "" -> title = t) /\
    (data_title data = Some "" -> title = "Suwi") /\
    (forall u, data_url data = Some u -> u <> "" -> opt_data_url options = u) /\
    (data_url data = None \/ data_url data = Some "" -> opt_data_url options = "/").
Proof.
  split; [reflexivity|].
  eexists; eexists; split; [reflexivity|]; cbn [opt_data_url].
  repeat split.
  - apply or_default_nonempty; discriminate.
  - apply or_default_nonempty; discriminate.
  - intros t -> Ht; now apply or_default_given.
  - intros ->; reflexivity.
  - intros u -> Hu; now apply or_default_given.
  - intros [-> | ->]; reflexivity.
Qed.

Lemma push_title_and_target_witness :
  exists title options,
    on_push (Some (mkPayload (Some "") (Some "Order ready") (Some "/orders/5/")))
            (test_host offline [])
    = (Some (Fulfilled tt),
       mkHost "https://suwi.example" offline (fun _ => None) [] []
              [ShowNotification title options]) /\
    title = "Suwi" /\ opt_data_url options = "/orders/5/".
Proof.
  destruct (proj2 (push_title_and_target
                     (mkPayload (Some "") (Some "Order ready") (Some "/orders/5/"))
                     (test_host offline [])))
    as (title & options & E & _ & _ & _ & Ht & Hu & _).
  exists title, options; split; [exact E | split].
  - now apply Ht.
  - apply Hu; [reflexivity | discriminate].
Defined.

Lemma focus_first_some (clientList : list WindowClient) (url : string) (k i : nat) :
  focus_first clientList url k = Some i ->
  exists j c, i = (k + j)%nat /\
    nth_error clientList j = Some c /\
    qualifies url c = true /\
    forall j' c', (j' < j)%nat -> nth_error clientList j' = Some c' ->
      qualifies url c' = false.
Proof.
  revert k; induction clientList as [|c cl IH]; intros k H; [discriminate|].
  cbn [focus_first] in H; fold (qualifies url c) in H.
  destruct (qualifies url c) eqn:Eq.
  - injection H as <-; exists 0%nat, c; repeat split; [lia | exact Eq |].
    intros j' c' Hlt; lia.
  - apply IH in H as (j & c0 & -> & Hn & Hq & Hfirst).
    exists (S j), c0; repeat split; [lia | exact Hn | exact Hq |].
    intros [|j'] c' Hlt Hn'.
    + cbn in Hn'; injection Hn' as <-; exact Eq.
    + apply (Hfirst j' c'); [lia | exact Hn'].
Qed.

Lemma focus_first_none (clientList : list WindowClient) (url : string) (k : nat) :
  focus_first clientList url k = None <->
  forall c, In c clientList -> qualifies url c = false.
Proof.
  revert k; induction clientList as [|c cl IH]; intros k; cbn [focus_first].
  - split; [intros _ c [] | reflexivity].
  - fold (qualifies url c); destruct (qualifies url c) eqn:Eq.
    + split; [discriminate|].
      intros H; rewrite (H c (or_introl eq_refl)) in Eq; discriminate.
    + rewrite IH; split.
      * intros H c' [<- | Hin]; [exact Eq | now apply H].
      * intros H c' Hin; apply H; now right.
Qed.

(** A click focuses the first window that shows exactly the target URL
    and can be focused, and then opens nothing: whenever the listener
    focuses the window at position [i], that window qualifies, no
    earlier one does, and no window is opened. *)
Theorem click_focuses_first_match (notification_data : option (option string))
    (clientList : list WindowClient) (can_open : bool) (i : nat) :
  In (ClientFocus i) (on_notificationclick notification_data clientList can_open) ->
  (exists c, nth_error clientList i = Some c /\
             client_url c = click_target notification_data /\
             has_focus c = true) /\
  (forall j c', (j < i)%nat -> nth_error clientList j = Some c' ->
     client_url c' <> click_target notification_data \/ has_focus c' = false) /\
  on_notificationclick notification_data clientList can_open
  = [NotificationClose; ClientsMatchAll; ClientFocus i].
Proof.
  unfold on_notificationclick; cbn zeta.
  destruct (focus_first clientList (click_target notification_data) 0) as [k|] eqn:E.
  - intros [H | [H | [H | []]]]; try discriminate; injection H as ->.
    apply focus_first_some in E as (j & c & -> & Hn & Hq & Hfirst); cbn [Nat.add] in *.
    unfold qualifies in Hq; apply andb_true_iff in Hq as [Hu Hf].
    apply String.eqb_eq in Hu.
    split; [eauto | split; [|reflexivity]].
    intros j' c' Hlt Hn'; specialize (Hfirst j' c' Hlt Hn').
    unfold qualifies in Hfirst; apply andb_false_iff in Hfirst as [Hu' | Hf'].
    + left; now apply String.eqb_neq.
    + now right.
  - destruct can_open; intros [H | [H | H]]; try discriminate.
    + destruct H as [H | []]; discriminate.
    + destruct H.
Qed.

Lemma click_focuses_first_match_witness :
  on_notificationclick (Some (Some "https://suwi.example/orders/5/")) two_windows true
  = [NotificationClose; ClientsMatchAll; ClientFocus 1].
Proof.
  apply (click_focuses_first_match (Some (Some "https://suwi.example/orders/5/"))
           two_windows true 1).
  simpl; auto.
Defined.

(** A click opens a window exactly when [clients.openWindow] exists and
    no listed window both shows exactly the target URL and can be
    focused; the window is opened at the target, and nothing is
    focused. *)
Theorem click_opens_window_iff (notification_data : option (option string))
    (clientList : list WindowClient) (can_open : bool) (u : string) :
  In (ClientsOpenWindow u) (on_notificationclick notification_data clientList can_open) <->
  (can_open = true /\
   u = click_target notification_data /\
   forall c, In c clientList ->
     client_url c <> click_target notification_data \/ has_focus c = false).
Proof.
  unfold on_notificationclick; cbn zeta.
  destruct (focus_first clientList (click_target notification_data) 0) as [k|] eqn:E.
  - split.
    + intros [H | [H | [H | []]]]; discriminate.
    + intros (_ & _ & Hnone).
      assert (X : focus_first clientList (click_target notification_data) 0 = None).
      { apply focus_first_none; intros c Hc.
        unfold qualifies; apply andb_false_iff.
        destruct (Hnone c Hc) as [Hu | Hf]; [left; now apply String.eqb_neq | now right]. }
      congruence.
  - pose proof (proj1 (focus_first_none _ _ _) E) as Hnone.
    assert (Hq : forall c, In c clientList ->
              client_url c <> click_target notification_data \/ has_focus c = false).
    { intros c Hc; specialize (Hnone c Hc).
      unfold qualifies in Hnone; apply andb_false_iff in Hnone as [Hu | Hf];
        [left; now apply String.eqb_neq | now right]. }
    destruct can_open; split.
    + intros [H | [H | [H | []]]]; try discriminate.
      injection H as <-; auto.
    + intros (_ & -> & _); simpl; auto.
    + intros [H | [H | []]]; discriminate.
    + intros (H & _); discriminate.
Qed.

Lemma click_opens_window_iff_witness :
  In (ClientsOpenWindow "/")
     (on_notificationclick None two_windows true).
Proof.
  apply (proj2 (click_opens_window_iff None two_windows true "/")).
  split; [reflexivity | split; [reflexivity|]].
  intros c [<- | [<- | []]]; left; discriminate.
Defined.

(** The window a click opens for a notification that [on_push] showed
    is at the URL of the push payload, or at [/] when the payload has
    none or an empty one. *)
Theorem click_after_push (data : PushPayload) (h : Host) (title : string)
    (options : NotificationOptions) (clientList : list WindowClient)
    (can_open : bool) (u : string) :
  log (snd (on_push (Some data) h)) = (log h ++ [ShowNotification title options])%list ->
  In (ClientsOpenWindow u)
     (on_notificationclick (data_of_options options) clientList can_open) ->
  u = or_default (data_url data) "/".
Proof.
  intros Hlog Hin.
  cbn in Hlog; apply app_inv_head in Hlog; injection Hlog as _ <-.
  apply click_opens_window_iff in Hin as (_ & -> & _).
  unfold click_target, data_of_options; cbn [opt_data_url].
  unfold or_default at 1.
  destruct (String.eqb (or_default (data_url data) "/") "") eqn:E; [|reflexivity].
  apply String.eqb_eq in E.
  now apply or_default_nonempty in E.
Qed.

Lemma click_after_push_witness :
  "/" = or_default (data_url (mkPayload (Some "Suwi") (Some "Hello") None)) "/".
Proof.
  apply (click_after_push (mkPayload (Some "Suwi") (Some "Hello") None)
           (test_host offline []) "Suwi"
           (mkOptions (Some "Hello") "/static/icons/icon-192x192.png"
                      "/static/icons/icon-72x72.png" [100; 50; 100] "/")
           two_windows true "/").
  - reflexivity.
  - simpl; auto.
Defined.

(** ** The phone field *)

Lemma strip_non_phone_chars (s : string) :
  string_forall phone_char (strip_non_phone s) = true.
Proof.
  induction s as [|c s IH]; cbn [strip_non_phone]; [reflexivity|].
  destruct (phone_char c) eqn:E; cbn [string_forall]; [now rewrite E | exact IH].
Qed.

Lemma strip_non_phone_fixed (s : string) :
  string_forall phone_char s = true -> strip_non_phone s = s.
Proof.
  induction s as [|c s IH]; cbn [strip_non_phone string_forall]; [reflexivity|].
  intros H; apply andb_true_iff in H as [Hc Hs]; now rewrite Hc, IH.
Qed.

Lemma startsWith_plus (s : string) : startsWith (String "+" s) "+" = true.
Proof. unfold startsWith; cbn [String.prefix]; now destruct s. Qed.

Lemma format_phone_cases (s : string) :
  (strip_non_phone s = "" /\ format_phone s = "") \/
  (startsWith (strip_non_phone s) "+" = true /\ format_phone s = strip_non_phone s) \/
  (strip_non_phone s <> "" /\ startsWith (strip_non_phone s) "+" = false /\
   format_phone s = String "+" (strip_non_phone s)).
Proof.
  unfold format_phone; cbn zeta.
  destruct (String.eqb (strip_non_phone s) "") eqn:E.
  - apply String.eqb_eq in E; rewrite E; now left.
  - apply String.eqb_neq in E.
    destruct (startsWith (strip_non_phone s) "+") eqn:P; cbn [negb andb]; right;
      [left | right]; auto.
Qed.

(** What the phone field is left with holds only digits and plus
    signs, and is either empty or begins with a plus sign; it is empty
    exactly when nothing typed was a digit or a plus sign. *)
Theorem format_phone_shape (input : string) :
  string_forall phone_char (format_phone input) = true /\
  (format_phone input = "" \/ startsWith (format_phone input) "+" = true) /\
  (format_phone input = "" <-> string_filter phone_char input = "").
Proof.
  assert (F : string_filter phone_char input = strip_non_phone input).
  { induction input as [|c s IH]; cbn; [reflexivity|]; now rewrite IH. }
  pose proof (strip_non_phone_chars input) as Hc.
  rewrite F.
  destruct (format_phone_cases input) as [[E ->] | [[P ->] | (N & P & ->)]].
  - repeat split; auto.
  - repeat split; auto.
  - cbn [string_forall]; rewrite Hc; split; [reflexivity | split].
    + right; apply startsWith_plus.
    + split; [discriminate | intros E; contradiction].
Qed.

(** The listener is stable on its own output: formatting what it wrote
    back changes nothing, so repeated input events do not keep
    rewriting the field. *)
Theorem format_phone_idempotent (input : string) :
  format_phone (format_phone input) = format_phone input.
Proof.
  destruct (format_phone_shape input) as (Hc & Hs & _).
  unfold format_phone at 1; cbn zeta.
  rewrite (strip_non_phone_fixed _ Hc).
  destruct Hs as [-> | ->]; [reflexivity|].
  now rewrite andb_false_r.
Qed.

(** No digit is lost, added or reordered: the digits of the field
    after formatting are the digits that were typed. *)
Theorem format_phone_keeps_digits (input : string) :
  string_filter is_digit (format_phone input) = string_filter is_digit input.
Proof.
  assert (F : string_filter is_digit (strip_non_phone input) = string_filter is_digit input).
  { induction input as [|c s IH]; cbn [strip_non_phone string_filter]; [reflexivity|].
    unfold phone_char; destruct (is_digit c) eqn:D; cbn [orb string_filter].
    - now rewrite D, IH.
    - destruct (Ascii.eqb c "+"); cbn [string_filter]; [now rewrite D|]; exact IH. }
  destruct (format_phone_cases input) as [[E ->] | [[P ->] | (N & P & ->)]].
  - now rewrite <- F, E.
  - exact F.
  - cbn [string_filter]; exact F.
Qed.

(** ** Cookies *)

Lemma append_assoc (a b c : string) : ((a ++ b) ++ c)%string = (a ++ b ++ c)%string.
Proof. induction a as [|x a IH]; cbn; [reflexivity | now rewrite IH]. Qed.

Lemma substring_zero (s : string) : substring 0 0 s = "".
Proof. now destruct s. Qed.

Lemma substring_all (s : string) : substring 0 (String.length s) s = s.
Proof. induction s as [|c s IH]; cbn; [reflexivity | now rewrite IH]. Qed.

Lemma substring_from_app (a b : string) :
  substring_from (String.length a) (a ++ b) = b.
Proof.
  unfold substring_from; induction a as [|c a IH]; cbn [String.length append].
  - rewrite Nat.sub_0_r; apply substring_all.
  - cbn [substring Nat.sub]; exact IH.
Qed.

Lemma length_name_eq (name : string) :
  String.length (name ++ "=") = (String.length name + 1)%nat.
Proof. induction name as [|c s IH]; cbn; [reflexivity | now rewrite IH]. Qed.

(** The loop's test picks a cookie by its whole name. *)
Lemma cookie_test (name n v : string) :
  lacks "=" name = true ->
  lacks "=" n = true ->
  String.eqb (substring_to (String.length name + 1) (n ++ "=" ++ v)) (name ++ "=")
  = String.eqb n name.
Proof.
  unfold substring_to, lacks; rewrite Nat.add_1_r.
  revert n; induction name as [|d name IH]; intros n Hname Hn.
  - destruct n as [|c n].
    + cbn [String.length append substring]; now rewrite substring_zero.
    + cbn [string_forall] in Hn; apply andb_true_iff in Hn as [Hc _].
      apply negb_true_iff in Hc.
      cbn [String.length append substring String.eqb]; now rewrite Hc.
  - cbn [string_forall] in Hname; apply andb_true_iff in Hname as [Hd Hname].
    apply negb_true_iff in Hd.
    destruct n as [|c n]; cbn [String.length append substring String.eqb].
    + now rewrite Ascii.eqb_sym, Hd.
    + cbn [string_forall] in Hn; apply andb_true_iff in Hn as [_ Hn].
      now rewrite IH.
Qed.

Lemma cookie_value (name v : string) :
  substring_from (String.length name + 1) (name ++ "=" ++ v) = v.
Proof.
  rewrite <- length_name_eq, <- append_assoc; apply substring_from_app.
Qed.

Lemma split_on_lacks (sep : ascii) (a : string) :
  lacks sep a = true -> split_on sep a = [a].
Proof.
  unfold lacks; induction a as [|c a IH]; cbn [string_forall split_on]; [reflexivity|].
  intros H; apply andb_true_iff in H as [Hc Ha]; apply negb_true_iff in Hc.
  now rewrite Hc, IH.
Qed.

Lemma split_on_app (sep : ascii) (a b : string) :
  lacks sep a = true ->
  split_on sep (a ++ String sep b) = a :: split_on sep b.
Proof.
  unfold lacks; induction a as [|c a IH]; cbn [string_forall split_on append].
  - now rewrite Ascii.eqb_refl.
  - intros H; apply andb_true_iff in H as [Hc Ha]; apply negb_true_iff in Hc.
    now rewrite Hc, IH.
Qed.

(** The segments of a rendered jar: the first pair as it is, the others
    after one space. *)
Lemma split_rendered (x : string) (xs : list string) :
  (forall y, In y (x :: xs) -> lacks ";" y = true) ->
  split_on ";" (String.concat "; " (x :: xs)) = x :: map (String " ") xs.
Proof.
  revert x; induction xs as [|y xs IH]; intros x H.
  - cbn [String.concat map]; apply split_on_lacks, H; now left.
  - change (String.concat "; " (x :: y :: xs))
      with (x ++ String ";" (String " " (String.concat "; " (y :: xs))))%string.
    rewrite split_on_app by (apply H; now left).
    cbn [split_on map]; change (Ascii.eqb " " ";") with false; cbn iota.
    rewrite IH by (intros z Hz; apply H; now right).
    reflexivity.
Qed.

Section CookieFacts.
Variable trim : string -> string.
Variable decodeURIComponent : string -> Completion string.

Lemma cookie_loop_jar (name : string) (segs : list string) (jar : list (string * string)) :
  lacks "=" name = true ->
  (forall nv, In nv jar -> lacks "=" (fst nv) = true) ->
  map trim segs = map render_pair jar ->
  cookie_loop trim decodeURIComponent name segs = jar_lookup decodeURIComponent name jar.
Proof.
  intros Hname; unfold jar_lookup.
  revert jar; induction segs as [|c segs IH]; intros [|[n v] jar] Hjar Hmap;
    try discriminate; [reflexivity|].
  cbn [map] in Hmap; injection Hmap as Hc Hrest.
  cbn [cookie_loop find fst snd]; rewrite Hc; unfold render_pair; cbn [fst snd].
  rewrite cookie_test by (trivial; apply (Hjar (n, v)); now left).
  destruct (String.eqb n name) eqn:E.
  - now rewrite (proj1 (String.eqb_eq _ _) E), cookie_value.
  - apply IH; [|exact Hrest].
    intros nv Hnv; apply Hjar; now right.
Qed.

(** Reading a cookie back.  For a jar rendered as [n1=v1; n2=v2; ...],
    where no name or value holds a semicolon, no name holds an equals
    sign and trimming a rendered pair (with or without the space before
    it) gives the pair, [getCookie(name)] is the decoded value of the
    first cookie whose name is exactly [name], [null] when there is
    none, and throws what decoding that value throws. *)
Theorem getCookie_reads_jar (name : string) (jar : list (string * string)) :
  lacks "=" name = true ->
  (forall nv, In nv jar ->
     lacks "=" (fst nv) = true /\
     lacks ";" (render_pair nv) = true /\
     trim (render_pair nv) = render_pair nv /\
     trim (String " " (render_pair nv)) = render_pair nv) ->
  getCookie trim decodeURIComponent name (render_jar jar)
  = jar_lookup decodeURIComponent name jar.
Proof.
  intros Hname Hjar; unfold getCookie, render_jar.
  destruct jar as [|nv jar]; [reflexivity|].
  cbn [map].
  assert (Hne : String.eqb (String.concat "; " (render_pair nv :: map render_pair jar)) ""
                = false).
  { apply String.eqb_neq.
    destruct nv as [n v]; unfold render_pair; cbn [fst snd String.concat].
    destruct (map _ jar); destruct n; discriminate. }
  rewrite Hne; cbn [negb].
  rewrite split_rendered.
  - apply cookie_loop_jar; [exact Hname | intros x Hx; now apply Hjar |].
    cbn [map]; f_equal.
    + destruct (Hjar nv (or_introl eq_refl)) as (_ & _ & Ht & _); exact Ht.
    + rewrite !map_map; apply map_ext_in; intros x Hx.
      destruct (Hjar x (or_intror Hx)) as (_ & _ & _ & Ht); exact Ht.
  - intros y [<- | Hy].
    + destruct (Hjar nv (or_introl eq_refl)) as (_ & Hl & _); exact Hl.
    + apply in_map_iff in Hy as (x & <- & Hx).
      destruct (Hjar x (or_intror Hx)) as (_ & Hl & _); exact Hl.
Qed.
End CookieFacts.

Lemma getCookie_reads_jar_witness :
  getCookie trim_spaces (fun s => Normal s) "csrftoken"
            "sessionid=abc123; csrftoken2=zzz; csrftoken=tok%3D1"
  = Normal (Some "tok%3D1").
Proof.
  apply (getCookie_reads_jar trim_spaces (fun s => Normal s) "csrftoken" sample_jar).
  - reflexivity.
  - intros nv [<- | [<- | [<- | []]]]; repeat split.
Defined.
